(** * The todo store of cafeatonce: data model, query layer and store actions

    Shallow embedding of [src/stores/todoStore.ts], of the query helpers
    of [@/utils] ([sortTodos], [filterTodos], [calculateTodoStats],
    [generateId], [getPriorityValue]) and of the types of [@/types].

    Conventions.
    - A JavaScript [Date] is its [getTime()] value, an integer of
      milliseconds ([Z]).  An optional property is an [option].
    - The store is a record; actions are computations in a state monad
      over a [World]: the store, the pending [setTimeout] callbacks and
      the two sources the code reads from its host, the clock
      ([new Date()], [Date.now()]) and [Math.random()].
    - Functions provided by the host or by libraries that are not part of
      the repository ([String.prototype.toLowerCase], [localeCompare],
      date-fns' [isPast]/[isToday], [JSON.parse]) are section variables. *)

From Stdlib Require Import ZArith Ascii String List Sorted Permutation Lia.
From stdpp Require Import base option list strings pretty sorting gmap.

Open Scope string_scope.

(** ** Types ([@/types]) *)

Inductive Priority := LOW | MEDIUM | HIGH | URGENT.

#[global] Instance Priority_eq_dec : EqDecision Priority.
Proof. solve_decision. Defined.

Definition Priority_to_nat (p : Priority) : nat :=
  match p with LOW => 0 | MEDIUM => 1 | HIGH => 2 | URGENT => 3 end.

Definition Priority_of_nat (n : nat) : option Priority :=
  match n with
  | 0 => Some LOW | 1 => Some MEDIUM | 2 => Some HIGH | 3 => Some URGENT
  | _ => None
  end.

#[global] Instance Priority_countable : Countable Priority.
Proof.
  apply (inj_countable Priority_to_nat Priority_of_nat).
  intros []; reflexivity.
Defined.

Record Todo := mkTodo {
  todo_id : string;
  todo_title : string;
  todo_description : option string;
  todo_completed : bool;
  todo_priority : Priority;
  todo_category : string;
  todo_dueDate : option Z;
  todo_createdAt : Z;
  todo_updatedAt : Z;
  todo_tags : list string
}.

Inductive Status := StatusAll | StatusActive | StatusCompleted.

Record TodoFilter := mkTodoFilter {
  filter_status : option Status;
  filter_priority : option Priority;
  filter_category : option string;
  filter_search : option string;
  filter_tag : option string
}.

(** A JavaScript number as a tally holds it: a count, or [NaN]. *)
Inductive JSNumber := Num (n : nat) | NaN.

Record TodoStats := mkTodoStats {
  stats_total : nat;
  stats_completed : nat;
  stats_pending : nat;
  stats_overdue : nat;
  stats_byPriority : gmap Priority nat;
  stats_byCategory : gmap string JSNumber
}.

Record Category := mkCategory {
  cat_id : string;
  cat_name : string;
  cat_color : string;
  cat_icon : option string;
  cat_createdAt : Z
}.

Inductive NotificationType := NSuccess | NError | NWarning | NInfo.

(** [NotificationState]; [Omit<NotificationState, 'id'>] is [NotificationInput]. *)
Record NotificationState := mkNotification {
  notif_id : string;
  notif_type : NotificationType;
  notif_title : string;
  notif_message : option string;
  notif_duration : option Z;
  notif_persistent : option bool
}.

Record NotificationInput := mkNotificationInput {
  in_type : NotificationType;
  in_title : string;
  in_message : option string;
  in_duration : option Z;
  in_persistent : option bool
}.

Record CreateTodoForm := mkCreateTodoForm {
  form_title : string;
  form_description : option string;
  form_priority : Priority;
  form_category : string;
  form_dueDate : option Z;
  form_tags : list string
}.

(** [UpdateTodoForm]: every key may be absent ([None]).  For the two keys
    whose value type is itself optional, [Some None] is the key present
    with value [undefined], which the object spread copies. *)
Record UpdateTodoForm := mkUpdateTodoForm {
  upd_title : option string;
  upd_description : option (option string);
  upd_priority : option Priority;
  upd_category : option string;
  upd_dueDate : option (option Z);
  upd_tags : option (list string);
  upd_completed : option bool
}.

Record CreateCategoryForm := mkCreateCategoryForm {
  cform_name : string;
  cform_color : string;
  cform_icon : option string
}.

(** ** JavaScript values produced by [JSON.parse] *)

#[local] Unset Elimination Schemes.
Inductive JSValue :=
  | JNull
  | JBool (b : bool)
  | JNumber (lexeme : string)
  | JString (s : string)
  | JArray (elements : list JSValue)
  | JObject (members : list (string * JSValue)).
#[local] Set Elimination Schemes.

(** A property read either completes with a value ([None] is [undefined])
    or throws. *)
Inductive Completion (A : Type) :=
  | Normal (a : A)
  | Throw.
Arguments Normal {A} a.
Arguments Throw {A}.

(** The last member of that name wins, as in an object built by
    [JSON.parse] from a text with a repeated key. *)
Fixpoint lookupMember (k : string) (ms : list (string * JSValue)) : option JSValue :=
  match ms with
  | [] => None
  | (k', v) :: rest =>
      match lookupMember k rest with
      | Some v' => Some v'
      | None => if String.eqb k' k then Some v else None
      end
  end.

(** [data[k]] for a key [k] that no prototype defines (here ['todos'] and
    ['categories']): [null] throws a [TypeError], primitives and arrays
    answer [undefined], objects answer their own member. *)
Definition getProp (data : JSValue) (k : string) : Completion (option JSValue) :=
  match data with
  | JNull => Throw
  | JObject ms => Normal (lookupMember k ms)
  | _ => Normal None
  end.

(** [v && Array.isArray(v)]: the elements when [v] is an array. *)
Definition asArray (v : option JSValue) : option (list JSValue) :=
  match v with
  | Some (JArray xs) => Some xs
  | _ => None
  end.

(** ** The store, its host and the state monad *)

Record TodoStore := mkStore {
  todos : list Todo;
  categories : list Category;
  filters : TodoFilter;
  notifications : list NotificationState;
  isLoading : bool;
  error : option string
}.

(** A pending [setTimeout(() => get().removeNotification(id), delay)]. *)
Record Timer := mkTimer {
  timer_delay : Z;
  timer_target : string
}.

(** The world an action runs in.  [clock n] is what the [n]-th read of the
    host clock returns and [entropy n] is the text of the [n]-th
    [Math.random().toString(36).substring(2)]; [clockReads] and [draws]
    count the reads made so far. *)
Record World := mkWorld {
  store : TodoStore;
  timers : list Timer;
  clock : nat -> Z;
  clockReads : nat;
  entropy : nat -> string;
  draws : nat
}.

Definition M (A : Type) : Type := World -> A * World.

Definition ret {A} (a : A) : M A := fun w => (a, w).
Definition bind {A B} (m : M A) (f : A -> M B) : M B :=
  fun w => let '(a, w') := m w in f a w'.

Declare Scope action_scope.
Delimit Scope action_scope with action.
Notation "'let!' x ':=' m 'in' k" := (bind m (fun x => k))
  (at level 10, x name, m at level 100, k at level 200) : action_scope.
Notation "'run!' m 'in' k" := (bind m (fun _ => k))
  (at level 10, m at level 100, k at level 200) : action_scope.
Open Scope action_scope.

(** [exec m w]: the world after running [m]. *)
Definition exec {A} (m : M A) (w : World) : World := snd (m w).
Definition eval {A} (m : M A) (w : World) : A := fst (m w).

Definition with_store (f : TodoStore -> TodoStore) (w : World) : World :=
  mkWorld (f (store w)) (timers w) (clock w) (clockReads w) (entropy w) (draws w).

(** zustand's [get()] and [set(state => partial)]. *)
Definition get : M TodoStore := fun w => (store w, w).
Definition set (f : TodoStore -> TodoStore) : M unit :=
  fun w => (tt, with_store f w).

Definition set_todos (l : list Todo) (s : TodoStore) : TodoStore :=
  mkStore l (categories s) (filters s) (notifications s) (isLoading s) (error s).
Definition set_categories (l : list Category) (s : TodoStore) : TodoStore :=
  mkStore (todos s) l (filters s) (notifications s) (isLoading s) (error s).
Definition set_filters (f : TodoFilter) (s : TodoStore) : TodoStore :=
  mkStore (todos s) (categories s) f (notifications s) (isLoading s) (error s).
Definition set_notifications (l : list NotificationState) (s : TodoStore) : TodoStore :=
  mkStore (todos s) (categories s) (filters s) l (isLoading s) (error s).

(** [new Date()] / [Date.now()]: one read of the host clock. *)
Definition newDate : M Z :=
  fun w => (clock w (clockReads w),
            mkWorld (store w) (timers w) (clock w) (S (clockReads w)) (entropy w) (draws w)).

(** [Math.random().toString(36).substring(2)]. *)
Definition randomText : M string :=
  fun w => (entropy w (draws w),
            mkWorld (store w) (timers w) (clock w) (clockReads w) (entropy w) (S (draws w))).

Definition setTimeout (t : Timer) : M unit :=
  fun w => (tt, mkWorld (store w) (timers w ++ [t]) (clock w) (clockReads w) (entropy w) (draws w)).

Fixpoint mapM {A B} (f : A -> M B) (l : list A) : M (list B) :=
  match l with
  | [] => ret []
  | x :: xs =>
      let! y := f x in
      let! ys := mapM f xs in
      ret (y :: ys)
  end.

(** ** Helpers of [@/utils] *)

Definition digit36 (d : Z) : ascii :=
  if (d <? 10)%Z then ascii_of_nat (48 + Z.to_nat d)
  else ascii_of_nat (87 + Z.to_nat d).

(** Digits of a positive number in base 36, most significant first;
    [fuel] bounds the number of digits. *)
Fixpoint digits36 (fuel : nat) (n : Z) (acc : string) : string :=
  match fuel with
  | O => acc
  | S fuel' =>
      let acc' := String (digit36 (n mod 36)) acc in
      if (n / 36 =? 0)%Z then acc' else digits36 fuel' (n / 36) acc'
  end.

(** [Number.prototype.toString(36)] on an integer. *)
Definition toString36 (n : Z) : string :=
  if (n =? 0)%Z then "0"
  else if (n <? 0)%Z
       then String "-" (digits36 (Z.to_nat (Z.log2 (- n)) + 1) (- n) EmptyString)
       else digits36 (Z.to_nat (Z.log2 n) + 1) n EmptyString.

(** [Math.random().toString(36).substring(2) + Date.now().toString(36)] *)
Definition generateId : M string :=
  let! r := randomText in
  let! now := newDate in
  ret (r ++ toString36 now).

Definition getPriorityValue (p : Priority) : Z :=
  match p with
  | LOW => 1
  | MEDIUM => 2
  | HIGH => 3
  | URGENT => 4
  end%Z.

(** [Array.prototype.sort(compareFn)].  The standard requires the sort to
    be stable and, for a consistent comparator, to order the array by it;
    that result is unique, and it is the one this insertion sort computes:
    an element is placed before the first element it does not exceed. *)
Section ArraySort.
Context {A : Type} (compareFn : A -> A -> Z).

Fixpoint sortInsert (x : A) (l : list A) : list A :=
  match l with
  | [] => [x]
  | y :: l' =>
      if (compareFn x y <=? 0)%Z then x :: y :: l' else y :: sortInsert x l'
  end.

Fixpoint arraySort (l : list A) : list A :=
  match l with
  | [] => []
  | x :: l' => sortInsert x (arraySort l')
  end.

(** The comparator lets [a] stand before [b]. *)
Definition before (a b : A) : Prop := (compareFn a b <= 0)%Z.
End ArraySort.

Inductive SortBy := SortCreatedAt | SortDueDate | SortPriority | SortTitle.
Inductive SortOrder := Asc | Desc.

Section Query.
(** [a.localeCompare(b)] and [s.toLowerCase()], from the host. *)
Variable localeCompare : string -> string -> Z.
Variable toLowerCase : string -> string.
(** date-fns' [isPast] and [isToday], which consult the host clock and
    calendar. *)
Variable isPast : Z -> bool.
Variable isToday : Z -> bool.

(** The [switch (sortBy)] of the comparator of [sortTodos]. *)
Definition comparison (sortBy : SortBy) (a b : Todo) : Z :=
  match sortBy with
  | SortCreatedAt => todo_createdAt a - todo_createdAt b
  | SortDueDate =>
      match todo_dueDate a, todo_dueDate b with
      | None, None => 0
      | None, Some _ => 1
      | Some _, None => -1
      | Some da, Some db => da - db
      end
  | SortPriority => getPriorityValue (todo_priority b) - getPriorityValue (todo_priority a)
  | SortTitle => localeCompare (todo_title a) (todo_title b)
  end%Z.

Definition compareTodos (sortBy : SortBy) (sortOrder : SortOrder) (a b : Todo) : Z :=
  match sortOrder with
  | Asc => comparison sortBy a b
  | Desc => (- comparison sortBy a b)%Z
  end.

Definition sortTodos (l : list Todo) (sortBy : SortBy) (sortOrder : SortOrder) : list Todo :=
  arraySort (compareTodos sortBy sortOrder) l.

(** [s.includes(sub)] *)
Fixpoint includes (s sub : string) : bool :=
  String.prefix sub s ||
  match s with
  | EmptyString => false
  | String _ s' => includes s' sub
  end.

(** Truthiness of an optional string: absent and empty are both falsy. *)
Definition truthy (o : option string) : option string :=
  match o with
  | Some s => if String.eqb s EmptyString then None else Some s
  | None => None
  end.

Definition statusOk (f : TodoFilter) (t : Todo) : bool :=
  match filter_status f with
  | Some StatusActive => negb (todo_completed t)
  | Some StatusCompleted => todo_completed t
  | _ => true
  end.

Definition priorityOk (f : TodoFilter) (t : Todo) : bool :=
  match filter_priority f with
  | Some p => bool_decide (todo_priority t = p)
  | None => true
  end.

Definition categoryOk (f : TodoFilter) (t : Todo) : bool :=
  match truthy (filter_category f) with
  | Some c => String.eqb (todo_category t) c
  | None => true
  end.

Definition searchOk (f : TodoFilter) (t : Todo) : bool :=
  match truthy (filter_search f) with
  | Some s =>
      let searchLower := toLowerCase s in
      let matchesTitle := includes (toLowerCase (todo_title t)) searchLower in
      let matchesDescription :=
        match todo_description t with
        | Some d => includes (toLowerCase d) searchLower
        | None => false
        end in
      matchesTitle || matchesDescription
  | None => true
  end.

Definition tagOk (f : TodoFilter) (t : Todo) : bool :=
  match truthy (filter_tag f) with
  | Some g => existsb (String.eqb g) (todo_tags t)
  | None => true
  end.

(** The callback of [todos.filter] in [filterTodos]: the five early
    [return false] tests in order, then [return true]. *)
Definition passes (f : TodoFilter) (t : Todo) : bool :=
  if negb (statusOk f t) then false
  else if negb (priorityOk f t) then false
  else if negb (categoryOk f t) then false
  else if negb (searchOk f t) then false
  else if negb (tagOk f t) then false
  else true.

Definition filterTodos (l : list Todo) (f : TodoFilter) : list Todo :=
  List.filter (passes f) l.

Definition isOverdue (d : Z) : bool := isPast d && negb (isToday d).

Definition incr (n : nat) : nat := S n.

(** The names that a plain object inherits as methods from
    [Object.prototype]. *)
Definition objectPrototypeMethods : list string :=
  [ "constructor"; "hasOwnProperty"; "isPrototypeOf"; "propertyIsEnumerable";
    "toLocaleString"; "toString"; "valueOf"; "__defineGetter__";
    "__defineSetter__"; "__lookupGetter__"; "__lookupSetter__" ].

Definition inheritsMethod (k : string) : bool :=
  existsb (String.eqb k) objectPrototypeMethods.

(** [if (byCategory[category]) byCategory[category]++ else byCategory[category] = 1]
    on the plain object [byCategory], whose own keys are the map.  An own
    positive count is truthy and incremented; an own [0] or [NaN] is falsy
    and restarts at 1.  Without an own key the read goes to
    [Object.prototype]: an inherited method is truthy and its increment
    stores [NaN] as an own key; [__proto__] answers the prototype, truthy,
    and its setter ignores the number assigned, so no key is stored; any
    other name is [undefined], falsy, and starts at 1. *)
Definition tallyCategory (byCategory : gmap string JSNumber) (category : string) :
    gmap string JSNumber :=
  match byCategory !! category with
  | Some (Num (S n)) => <[category := Num (S (S n))]> byCategory
  | Some _ => <[category := Num 1]> byCategory
  | None =>
      if String.eqb category "__proto__" then byCategory
      else if inheritsMethod category then <[category := NaN]> byCategory
      else <[category := Num 1]> byCategory
  end.

(** One turn of the [forEach] of [calculateTodoStats]. *)
Definition tally (s : TodoStats) (t : Todo) : TodoStats :=
  let completed' := if todo_completed t then incr (stats_completed s) else stats_completed s in
  let pending' := if todo_completed t then stats_pending s else incr (stats_pending s) in
  let overdue' :=
    if todo_completed t then stats_overdue s
    else match todo_dueDate t with
         | Some d => if isOverdue d then incr (stats_overdue s) else stats_overdue s
         | None => stats_overdue s
         end in
  let byPriority' := alter incr (todo_priority t) (stats_byPriority s) in
  let byCategory' := tallyCategory (stats_byCategory s) (todo_category t) in
  mkTodoStats (stats_total s) completed' pending' overdue' byPriority' byCategory'.

Definition emptyStats (total : nat) : TodoStats :=
  mkTodoStats total 0 0 0
    (<[LOW := 0]> (<[MEDIUM := 0]> (<[HIGH := 0]> (<[URGENT := 0]> ∅))))
    ∅.

Definition calculateTodoStats (l : list Todo) : TodoStats :=
  fold_left tally l (emptyStats (length l)).
End Query.

(** ** Store actions ([useTodoStore]) *)

(** The double quote of the template literals. *)
Definition dquote : string := String "034"%char EmptyString.
Definition quoted (s : string) : string := dquote ++ s ++ dquote.

Definition removeNotification (id : string) : M unit :=
  set (fun state =>
    set_notifications
      (List.filter (fun notif => negb (String.eqb (notif_id notif) id)) (notifications state))
      state).

Definition clearNotifications : M unit :=
  set (set_notifications []).

(** [notification.duration || 5000]: an absent duration and the falsy
    duration [0] both give the fallback. *)
Definition durationOrDefault (d : option Z) : Z :=
  match d with
  | Some d => if (d =? 0)%Z then 5000%Z else d
  | None => 5000%Z
  end.

Definition isTrue (b : option bool) : bool :=
  match b with Some true => true | _ => false end.

Definition addNotification (notification : NotificationInput) : M unit :=
  let! newId := generateId in
  let newNotification :=
    mkNotification newId (in_type notification) (in_title notification)
      (in_message notification)
      (Some (durationOrDefault (in_duration notification)))
      (in_persistent notification) in
  run! set (fun state =>
         set_notifications (notifications state ++ [newNotification]) state) in
  (* Auto-remove notification after duration *)
  if negb (isTrue (in_persistent notification))
     && negb (durationOrDefault (in_duration notification) =? 0)%Z
  then setTimeout (mkTimer (durationOrDefault (in_duration notification)) newId)
  else ret tt.

(** The host runs the [i]-th pending timer callback. *)
Definition fireTimer (i : nat) : M unit :=
  fun w =>
    match timers w !! i with
    | Some t =>
        removeNotification (timer_target t)
          (mkWorld (store w) (take i (timers w) ++ drop (S i) (timers w))
                   (clock w) (clockReads w) (entropy w) (draws w))
    | None => (tt, w)
    end.

Definition getTodoById (id : string) : M (option Todo) :=
  let! state := get in
  ret (List.find (fun todo => String.eqb (todo_id todo) id) (todos state)).

Definition getCategoryById (id : string) : M (option Category) :=
  let! state := get in
  ret (List.find (fun category => String.eqb (cat_id category) id) (categories state)).

Definition success (title : string) (message : string) (duration : Z) : NotificationInput :=
  mkNotificationInput NSuccess title (Some message) (Some duration) None.

Definition addTodo (todoData : CreateTodoForm) : M unit :=
  let! newId := generateId in
  let! created := newDate in
  let! updated := newDate in
  let newTodo :=
    mkTodo newId (form_title todoData) (form_description todoData) false
      (form_priority todoData) (form_category todoData) (form_dueDate todoData)
      created updated (form_tags todoData) in
  run! set (fun state => set_todos (todos state ++ [newTodo]) state) in
  addNotification
    (success "Todo created"
       (quoted (todo_title newTodo) ++ " has been added to your list") 3000).

(** [{ ...todo, ...updates, updatedAt: now }] *)
Definition applyUpdates (todo : Todo) (updates : UpdateTodoForm) (now : Z) : Todo :=
  mkTodo (todo_id todo)
    (default (todo_title todo) (upd_title updates))
    (default (todo_description todo) (upd_description updates))
    (default (todo_completed todo) (upd_completed updates))
    (default (todo_priority todo) (upd_priority updates))
    (default (todo_category todo) (upd_category updates))
    (default (todo_dueDate todo) (upd_dueDate updates))
    (todo_createdAt todo)
    now
    (default (todo_tags todo) (upd_tags updates)).

Definition updateTodo (id : string) (updates : UpdateTodoForm) : M unit :=
  let! state := get in
  let! todos' :=
    mapM (fun todo =>
            if String.eqb (todo_id todo) id
            then let! now := newDate in ret (applyUpdates todo updates now)
            else ret todo)
         (todos state) in
  run! set (set_todos todos') in
  let! todo := getTodoById id in
  match todo with
  | Some todo =>
      addNotification
        (success "Todo updated" (quoted (todo_title todo) ++ " has been updated") 2000)
  | None => ret tt
  end.

Definition deleteTodo (id : string) : M unit :=
  let! todo := getTodoById id in
  run! set (fun state =>
         set_todos (List.filter (fun todo => negb (String.eqb (todo_id todo) id)) (todos state))
                   state) in
  match todo with
  | Some todo =>
      addNotification
        (success "Todo deleted" (quoted (todo_title todo) ++ " has been removed") 2000)
  | None => ret tt
  end.

Definition onlyCompleted (b : bool) : UpdateTodoForm :=
  mkUpdateTodoForm None None None None None None (Some b).

Definition toggleTodo (id : string) : M unit :=
  let! todo := getTodoById id in
  match todo with
  | None => ret tt
  | Some todo =>
      let newCompletedState := negb (todo_completed todo) in
      run! updateTodo id (onlyCompleted newCompletedState) in
      addNotification
        (success (if newCompletedState then "Todo completed" else "Todo reopened")
           (quoted (todo_title todo) ++ " marked as "
              ++ (if newCompletedState then "completed" else "pending"))
           2000)
  end.

Definition duplicateTodo (id : string) : M unit :=
  let! todo := getTodoById id in
  match todo with
  | None => ret tt
  | Some todo =>
      addTodo
        (mkCreateTodoForm (todo_title todo ++ " (Copy)") (todo_description todo)
           (todo_priority todo) (todo_category todo) (todo_dueDate todo)
           (todo_tags todo))
  end.

(** [{ ...todo, category: 'personal', updatedAt: now }] *)
Definition moveToPersonal (todo : Todo) (now : Z) : Todo :=
  mkTodo (todo_id todo) (todo_title todo) (todo_description todo)
    (todo_completed todo) (todo_priority todo) "personal" (todo_dueDate todo)
    (todo_createdAt todo) now (todo_tags todo).

Definition deleteCategory (id : string) : M unit :=
  let! category := getCategoryById id in
  let! state := get in
  let categories' :=
    List.filter (fun cat => negb (String.eqb (cat_id cat) id)) (categories state) in
  let! todos' :=
    mapM (fun todo =>
            if String.eqb (todo_category todo) id
            then let! now := newDate in ret (moveToPersonal todo now)
            else ret todo)
         (todos state) in
  run! set (fun state => set_todos todos' (set_categories categories' state)) in
  match category with
  | Some category =>
      addNotification
        (mkNotificationInput NWarning "Category deleted"
           (Some (quoted (cat_name category)
                    ++ " category has been removed. Todos moved to Personal."))
           (Some 3000%Z) None)
  | None => ret tt
  end.

Section Importing.
(** [JSON.parse]: [None] when it throws a [SyntaxError]. *)
Variable JSON_parse : string -> option JSValue.
(** The parsed elements are appended as they are; these are the views
    of an element of type [any] as a [Todo] and as a [Category]. *)
Variable asTodo : JSValue -> Todo.
Variable asCategory : JSValue -> Category.

(** The [try] block of [importData]; [Throw] transfers to [catch] with
    the world as it is at the throw. *)
Definition importTry (dataString : string) : M (Completion unit) :=
  match JSON_parse dataString with
  | None => ret Throw
  | Some data =>
      match getProp data "todos" with
      | Throw => ret Throw
      | Normal dataTodos =>
          run! match asArray dataTodos with
               | Some xs =>
                   set (fun state => set_todos (todos state ++ map asTodo xs) state)
               | None => ret tt
               end in
          match getProp data "categories" with
          | Throw => ret Throw
          | Normal dataCategories =>
              run! match asArray dataCategories with
                   | Some xs =>
                       set (fun state =>
                              set_categories (categories state ++ map asCategory xs) state)
                   | None => ret tt
                   end in
              run! addNotification
                     (success "Data imported"
                        "Your data has been successfully imported" 3000) in
              ret (Normal tt)
          end
      end
  end.

Definition importData (dataString : string) : M unit :=
  let! r := importTry dataString in
  match r with
  | Normal _ => ret tt
  | Throw =>
      addNotification
        (mkNotificationInput NError "Import failed"
           (Some "Failed to import data. Please check the file format.")
           (Some 5000%Z) None)
  end.
End Importing.

(** ** A reference [JSON.parse]

    A recursive-descent reader of the JSON grammar (ECMA-404), used to run
    [importData] on concrete texts.  Numbers are kept as their lexeme;
    escapes in strings are decoded, a [\u] escape above the ASCII range to
    its UTF-8 bytes. *)
Module Json.

Definition isWs (c : ascii) : bool :=
  match c with
  | " " | "009" | "010" | "013" => true
  | _ => false
  end%char.

Fixpoint skipWs (s : string) : string :=
  match s with
  | String c r => if isWs c then skipWs r else s
  | EmptyString => s
  end.

Definition isDigit (c : ascii) : bool :=
  (48 <=? nat_of_ascii c)%nat && (nat_of_ascii c <=? 57)%nat.

(** The longest prefix of digits, and the rest. *)
Fixpoint spanDigits (s : string) : string * string :=
  match s with
  | String c r =>
      if isDigit c then let '(ds, r') := spanDigits r in (String c ds, r')
      else (EmptyString, s)
  | EmptyString => (EmptyString, s)
  end.

Definition isEmpty (s : string) : bool :=
  match s with EmptyString => true | _ => false end.

(** [int]: a single [0], or a non-zero digit followed by digits. *)
Definition readInt (s : string) : option (string * string) :=
  match s with
  | String c r =>
      if Ascii.eqb c "0" then Some (String c EmptyString, r)
      else if isDigit c then let '(ds, r') := spanDigits r in Some (String c ds, r')
      else None
  | EmptyString => None
  end.

Definition readFrac (s : string) : option (string * string) :=
  match s with
  | String "." r =>
      let '(ds, r') := spanDigits r in
      if isEmpty ds then None else Some (String "." ds, r')
  | _ => Some (EmptyString, s)
  end.

Definition readExp (s : string) : option (string * string) :=
  match s with
  | String c r =>
      if Ascii.eqb c "e" || Ascii.eqb c "E" then
        let '(sign, r1) :=
          match r with
          | String "+" r1 => (String "+" EmptyString, r1)
          | String "-" r1 => (String "-" EmptyString, r1)
          | _ => (EmptyString, r)
          end in
        let '(ds, r2) := spanDigits r1 in
        if isEmpty ds then None else Some (String c (sign ++ ds), r2)
      else Some (EmptyString, s)
  | EmptyString => Some (EmptyString, s)
  end.

Definition readNumber (s : string) : option (string * string) :=
  let '(sign, s1) :=
    match s with
    | String "-" r => (String "-" EmptyString, r)
    | _ => (EmptyString, s)
    end in
  match readInt s1 with
  | None => None
  | Some (i, s2) =>
      match readFrac s2 with
      | None => None
      | Some (f, s3) =>
          match readExp s3 with
          | None => None
          | Some (e, s4) => Some (sign ++ i ++ f ++ e, s4)
          end
      end
  end.

Definition hexValue (c : ascii) : option nat :=
  let n := nat_of_ascii c in
  if (48 <=? n)%nat && (n <=? 57)%nat then Some (n - 48)
  else if (65 <=? n)%nat && (n <=? 70)%nat then Some (n - 55)
  else if (97 <=? n)%nat && (n <=? 102)%nat then Some (n - 87)
  else None.

(** UTF-8 bytes of a code unit. *)
Definition utf8 (u : nat) : string :=
  if (u <? 128)%nat then String (ascii_of_nat u) EmptyString
  else if (u <? 2048)%nat then
    String (ascii_of_nat (192 + u / 64))
      (String (ascii_of_nat (128 + u mod 64)) EmptyString)
  else
    String (ascii_of_nat (224 + u / 4096))
      (String (ascii_of_nat (128 + (u / 64) mod 64))
         (String (ascii_of_nat (128 + u mod 64)) EmptyString)).

(** The characters of a string after its opening quote, up to and
    including the closing quote. *)
Fixpoint readChars (s : string) : option (string * string) :=
  match s with
  | EmptyString => None
  | String c r =>
      if Ascii.eqb c "034" then Some (EmptyString, r)
      else if Ascii.eqb c "\" then
        match r with
        | String e r1 =>
            let continue (decoded : string) (rest : option (string * string)) :=
              match rest with
              | Some (cs, r') => Some (decoded ++ cs, r')
              | None => None
              end in
            let one (a : ascii) := String a EmptyString in
            if Ascii.eqb e "034" then continue (one "034") (readChars r1)
            else if Ascii.eqb e "\" then continue (one "\") (readChars r1)
            else if Ascii.eqb e "/" then continue (one "/") (readChars r1)
            else if Ascii.eqb e "b" then continue (one "008") (readChars r1)
            else if Ascii.eqb e "f" then continue (one "012") (readChars r1)
            else if Ascii.eqb e "n" then continue (one "010") (readChars r1)
            else if Ascii.eqb e "r" then continue (one "013") (readChars r1)
            else if Ascii.eqb e "t" then continue (one "009") (readChars r1)
            else if Ascii.eqb e "u" then
              match r1 with
              | String h1 (String h2 (String h3 (String h4 r2))) =>
                  match hexValue h1, hexValue h2, hexValue h3, hexValue h4 with
                  | Some a, Some b, Some c', Some d =>
                      continue (utf8 (((a * 16 + b) * 16 + c') * 16 + d)) (readChars r2)
                  | _, _, _, _ => None
                  end
              | _ => None
              end
            else None
        | EmptyString => None
        end
      else if (nat_of_ascii c <? 32)%nat then None
      else
        match readChars r with
        | Some (cs, r') => Some (String c cs, r')
        | None => None
        end
  end%char.

Definition readLiteral (lit : string) (v : JSValue) (s : string) : option (JSValue * string) :=
  if String.prefix lit s
  then Some (v, String.substring (String.length lit) (String.length s - String.length lit) s)
  else None.

(** [value], the [elements] of an array after its first position and
    the [members] of an object; [fuel] bounds the nesting of calls. *)
Fixpoint readValue (fuel : nat) (s : string) : option (JSValue * string) :=
  match fuel with
  | O => None
  | S fuel' =>
      match skipWs s with
      | String c r =>
          if Ascii.eqb c "{" then
            match skipWs r with
            | String "}" r' => Some (JObject [], r')
            | r1 => readMembers fuel' r1 []
            end
          else if Ascii.eqb c "[" then
            match skipWs r with
            | String "]" r' => Some (JArray [], r')
            | r1 => readElements fuel' r1 []
            end
          else if Ascii.eqb c "034" then
            match readChars r with
            | Some (str, r') => Some (JString str, r')
            | None => None
            end
          else if Ascii.eqb c "t" then readLiteral "true" (JBool true) (String c r)
          else if Ascii.eqb c "f" then readLiteral "false" (JBool false) (String c r)
          else if Ascii.eqb c "n" then readLiteral "null" JNull (String c r)
          else
            match readNumber (String c r) with
            | Some (lexeme, r') => Some (JNumber lexeme, r')
            | None => None
            end
      | EmptyString => None
      end
  end%char
with readElements (fuel : nat) (s : string) (acc : list JSValue) : option (JSValue * string) :=
  match fuel with
  | O => None
  | S fuel' =>
      match readValue fuel' s with
      | Some (v, r) =>
          match skipWs r with
          | String "," r' => readElements fuel' r' (acc ++ [v])
          | String "]" r' => Some (JArray (acc ++ [v]), r')
          | _ => None
          end
      | None => None
      end
  end%char
with readMembers (fuel : nat) (s : string) (acc : list (string * JSValue)) : option (JSValue * string) :=
  match fuel with
  | O => None
  | S fuel' =>
      match skipWs s with
      | String "034" r =>
          match readChars r with
          | Some (k, r1) =>
              match skipWs r1 with
              | String ":" r2 =>
                  match readValue fuel' r2 with
                  | Some (v, r3) =>
                      match skipWs r3 with
                      | String "," r4 => readMembers fuel' r4 (acc ++ [(k, v)])
                      | String "}" r4 => Some (JObject (acc ++ [(k, v)]), r4)
                      | _ => None
                      end
                  | None => None
                  end
              | _ => None
              end
          | None => None
          end
      | _ => None
      end
  end%char.

(** Every call consumes a character within two steps, so twice the
    length of the text is fuel enough. *)
Definition parse (text : string) : option JSValue :=
  match readValue (2 * String.length text + 2) text with
  | Some (v, r) => if isEmpty (skipWs r) then Some v else None
  | None => None
  end.

End Json.

(** ** Vocabulary of the properties *)

(** Every item without a due time stands after every item with one. *)
Definition undatedLast (l : list Todo) : Prop :=
  forall i j a b, l !! i = Some a -> l !! j = Some b ->
    todo_dueDate a = None -> todo_dueDate b <> None -> j < i.

(** Every item without a due time stands before every item with one. *)
Definition undatedFirst (l : list Todo) : Prop :=
  forall i j a b, l !! i = Some a -> l !! j = Some b ->
    todo_dueDate a = None -> todo_dueDate b <> None -> i < j.

Definition rankDescending (a b : Todo) : Prop :=
  (getPriorityValue (todo_priority b) <= getPriorityValue (todo_priority a))%Z.

Definition rankAscending (a b : Todo) : Prop :=
  (getPriorityValue (todo_priority a) <= getPriorityValue (todo_priority b))%Z.

(** The filter [{}]. *)
Definition noCriteria : TodoFilter := mkTodoFilter None None None None None.

(** [byPriority[p]], reading an absent bucket as 0. *)
Definition bucket (s : TodoStats) (p : Priority) : nat :=
  default 0 (stats_byPriority s !! p).

Definition sumByPriority (s : TodoStats) : nat :=
  bucket s LOW + bucket s MEDIUM + bucket s HIGH + bucket s URGENT.

(** Sample data. *)
Definition sampleTodo (id : string) (completed : bool) (due : option Z) : Todo :=
  mkTodo id "Buy milk" None completed MEDIUM "personal" due 1000 1000 [].

Definition byCodePoint (a b : string) : Z :=
  match String.compare a b with Lt => -1 | Eq => 0 | Gt => 1 end%Z.

(** How [todos.map(todo => sel(todo) ? f(todo, new Date()) : todo)] relates
    an item to its image. *)
Definition touched (sel : Todo -> bool) (f : Todo -> Z -> Todo) (old new : Todo) : Prop :=
  if sel old then exists now, new = f old now else new = old.

(** [t] with another last-modified timestamp. *)
Definition restamp (t : Todo) (now : Z) : Todo :=
  mkTodo (todo_id t) (todo_title t) (todo_description t) (todo_completed t)
    (todo_priority t) (todo_category t) (todo_dueDate t) (todo_createdAt t)
    now (todo_tags t).

Definition hasId (id : string) (todo : Todo) : bool := String.eqb (todo_id todo) id.

(** The notification that [updateTodo] emits for [todo]. *)
Definition updatedNotice (nid : string) (todo : Todo) : NotificationState :=
  mkNotification nid NSuccess "Todo updated"
    (Some (quoted (todo_title todo) ++ " has been updated")) (Some 2000%Z) None.

(** The notification that [toggleTodo] emits for [todo], found before the
    flip, when the flag becomes [newCompletedState]. *)
Definition toggledNotice (nid : string) (todo : Todo) (newCompletedState : bool) :
    NotificationState :=
  mkNotification nid NSuccess
    (if newCompletedState then "Todo completed" else "Todo reopened")
    (Some (quoted (todo_title todo) ++ " marked as "
             ++ (if newCompletedState then "completed" else "pending")))
    (Some 2000%Z) None.

(** [t] with another completion flag. *)
Definition setCompleted (c : bool) (t : Todo) : Todo :=
  mkTodo (todo_id t) (todo_title t) (todo_description t) c
    (todo_priority t) (todo_category t) (todo_dueDate t) (todo_createdAt t)
    (todo_updatedAt t) (todo_tags t).

(** The categories of the initial state; [loadedAt] is the time at which
    the module was loaded. *)
Definition defaultCategories (loadedAt : Z) : list Category :=
  [ mkCategory "personal" "Personal" "#3B82F6" (Some "User") loadedAt;
    mkCategory "work" "Work" "#F59E0B" (Some "Briefcase") loadedAt;
    mkCategory "shopping" "Shopping" "#10B981" (Some "ShoppingCart") loadedAt;
    mkCategory "health" "Health" "#EF4444" (Some "Heart") loadedAt ].

Definition defaultFilters : TodoFilter :=
  mkTodoFilter (Some StatusAll) None None None None.

(** A host whose clock advances by one millisecond at each read. *)
Definition tickingClock (n : nat) : Z := (1700000000000 + Z.of_nat n)%Z.
(** A host whose clock stands still over the reads of one action. *)
Definition steadyClock (n : nat) : Z := 1700000000000%Z.
Definition sampleEntropy (n : nat) : string := "k7q" ++ toString36 (Z.of_nat n).

(** The initial store holding the items [l], with a given clock. *)
Definition sampleWorld (clock : nat -> Z) (l : list Todo) : World :=
  mkWorld (mkStore l (defaultCategories 0) defaultFilters [] false None)
    [] clock 0 sampleEntropy 0.

(** C9 as stated, for one world: for every item present, two consecutive
    [toggleTodo] calls on its id restore its completion flag. *)
Definition flagsRestored (w : World) : Prop :=
  forall i t, todos (store w) !! i = Some t ->
    exists t',
      todos (store (exec (toggleTodo (todo_id t)) (exec (toggleTodo (todo_id t)) w))) !! i
      = Some t'
      /\ todo_completed t' = todo_completed t.

Definition sampleDraft : CreateTodoForm :=
  mkCreateTodoForm "Buy milk" None MEDIUM "personal" None [].

(** C8 as stated, for one draft and one world: the identifier that
    [addTodo] allocates is the identifier of no existing item, and lookup
    by it afterwards answers an item that is not completed and whose two
    timestamps are equal. *)
Definition createdFresh (draft : CreateTodoForm) (w : World) : Prop :=
  ~ In (eval generateId w) (map todo_id (todos (store w)))
  /\ exists t,
       eval (getTodoById (eval generateId w)) (exec (addTodo draft) w) = Some t
       /\ todo_completed t = false
       /\ todo_createdAt t = todo_updatedAt t.

(** [data[k]] when it is an array. *)
Definition arrayAt (data : JSValue) (k : string) : option (list JSValue) :=
  match getProp data k with
  | Normal v => asArray v
  | Throw => None
  end.

(** The [try] block of [importData] throws: the text does not parse, or
    it parses to [null]. *)
Definition importThrows (r : option JSValue) : bool :=
  match r with
  | None | Some JNull => true
  | Some _ => false
  end.

(** The elements of the array [data[k]] of the parsed text; none when the
    text does not parse or [data[k]] is no array. *)
Definition elementsAt (r : option JSValue) (k : string) : list JSValue :=
  match r with
  | Some data => default [] (arrayAt data k)
  | None => []
  end.

(** The text [{"todos":[null,42]}]. *)
Definition junkDocument : string :=
  "{" ++ dquote ++ "todos" ++ dquote ++ ":[null,42]}".

(** C1 as stated, for one text and one world: both collections are
    unchanged and exactly one notification, of type 'error', is appended. *)
Definition failsClosed (parse : string -> option JSValue) (asTodo : JSValue -> Todo)
    (asCategory : JSValue -> Category) (text : string) (w : World) : Prop :=
  todos (store (exec (importData parse asTodo asCategory text) w)) = todos (store w)
  /\ categories (store (exec (importData parse asTodo asCategory text) w))
     = categories (store w)
  /\ exists n,
       notifications (store (exec (importData parse asTodo asCategory text) w))
       = (notifications (store w) ++ [n])%list
       /\ notif_type n = NError.

(** Sample views of a parsed element, for concrete runs of [importData]. *)
Definition stringAt (v : JSValue) (k : string) : string :=
  match v with
  | JObject ms =>
      match lookupMember k ms with
      | Some (JString s) => s
      | _ => EmptyString
      end
  | _ => EmptyString
  end.

Definition sampleAsTodo (v : JSValue) : Todo :=
  mkTodo (stringAt v "id") (stringAt v "title") None false MEDIUM
    (stringAt v "category") None 0 0 [].

Definition sampleAsCategory (v : JSValue) : Category :=
  mkCategory (stringAt v "id") (stringAt v "name") (stringAt v "color") None 0.

(** ** The other store actions *)

(** [ids.includes(id)] *)
Definition includesId (ids : list string) (id : string) : bool :=
  existsb (String.eqb id) ids.

Definition bulkDeleteTodos (ids : list string) : M unit :=
  run! set (fun state =>
         set_todos
           (List.filter (fun todo => negb (includesId ids (todo_id todo))) (todos state))
           state) in
  addNotification
    (success "Todos deleted"
       (pretty (length ids) ++ " todo(s) have been deleted") 2000).

Definition bulkUpdateTodos (ids : list string) (updates : UpdateTodoForm) : M unit :=
  let! state := get in
  let! todos' :=
    mapM (fun todo =>
            if includesId ids (todo_id todo)
            then let! now := newDate in ret (applyUpdates todo updates now)
            else ret todo)
         (todos state) in
  run! set (set_todos todos') in
  addNotification
    (success "Todos updated"
       (pretty (length ids) ++ " todo(s) have been updated") 2000).

Definition addCategory (categoryData : CreateCategoryForm) : M unit :=
  let! newId := generateId in
  let! created := newDate in
  let newCategory :=
    mkCategory newId (cform_name categoryData) (cform_color categoryData)
      (cform_icon categoryData) created in
  run! set (fun state => set_categories (categories state ++ [newCategory]) state) in
  addNotification
    (success "Category created"
       (quoted (cat_name newCategory) ++ " category has been added") 2000).




(** [Partial<TodoFilter>]: each key absent ([None]) or present, possibly
    with value [undefined] ([Some None]). *)
Record FilterPatch := mkFilterPatch {
  fpatch_status : option (option Status);
  fpatch_priority : option (option Priority);
  fpatch_category : option (option string);
  fpatch_search : option (option string);
  fpatch_tag : option (option string)
}.

(** [{ ...state.filters, ...filter }] *)
Definition mergeFilter (f : TodoFilter) (p : FilterPatch) : TodoFilter :=
  mkTodoFilter
    (default (filter_status f) (fpatch_status p))
    (default (filter_priority f) (fpatch_priority p))
    (default (filter_category f) (fpatch_category p))
    (default (filter_search f) (fpatch_search p))
    (default (filter_tag f) (fpatch_tag p)).

Definition setFilter (filter : FilterPatch) : M unit :=
  set (fun state => set_filters (mergeFilter (filters state) filter) state).

Definition clearFilters : M unit :=
  set (set_filters defaultFilters).

Section Getters.
Variable toLowerCase : string -> string.
Variable isPast : Z -> bool.
Variable isToday : Z -> bool.

Definition getFilteredTodos : M (list Todo) :=
  let! state := get in
  ret (filterTodos toLowerCase (todos state) (filters state)).

Definition getTodoStats : M TodoStats :=
  let! state := get in
  ret (calculateTodoStats isPast isToday (todos state)).
End Getters.

Section Reset.
(** The module constant [defaultCategories], evaluated when the module
    is loaded. *)
Variable initialCategories : list Category.

Definition clearAllData : M unit :=
  run! set (fun state =>
         mkStore [] initialCategories defaultFilters [] (isLoading state) (error state)) in
  addNotification
    (success "Data cleared" "All data has been cleared successfully" 3000).
End Reset.

(** ** Array helpers of [@/utils] *)

(** [[...new Set(array)]]: the elements in the order of their first
    occurrence, for elements compared by value. *)
Definition unique {A} `{EqDecision A} (array : list A) : list A :=
  fold_left (fun seen x => if bool_decide (x ∈ seen) then seen else (seen ++ [x])%list)
    array [].


(** ** The tag handlers of [TodoForm] *)

Section TagInput.
(** [String.prototype.trim], from the host. *)
Variable trim : string -> string.

Definition addTag (watchedTags : list string) (tagInput : string) : list string :=
  if negb (String.eqb (trim tagInput) EmptyString)
     && negb (existsb (String.eqb (trim tagInput)) watchedTags)
  then (watchedTags ++ [trim tagInput])%list
  else watchedTags.

Definition removeTag (watchedTags : list string) (tagToRemove : string) : list string :=
  List.filter (fun tag => negb (String.eqb tag tagToRemove)) watchedTags.
End TagInput.

(** ** Vocabulary of the further properties *)

(** How many items of [l] satisfy [p]. *)
Definition countWhere {A} (p : A -> bool) (l : list A) : nat :=
  length (List.filter p l).

Definition hasPriority (p : Priority) (t : Todo) : bool :=
  bool_decide (todo_priority t = p).

Definition inCategory (c : string) (t : Todo) : bool :=
  String.eqb (todo_category t) c.

(** Pending with a due time that is overdue. *)
Definition pendingOverdue (isPast isToday : Z -> bool) (t : Todo) : bool :=
  negb (todo_completed t)
  && match todo_dueDate t with
     | Some d => isOverdue isPast isToday d
     | None => false
     end.

(** The entry of [byCategory] for a category that [n] items have: none
    for no item; otherwise the count, except that a category named like an
    inherited method holds [NaN] after its first item and one less than
    the count from then on, and that [__proto__] never gets an entry. *)
Definition categoryTally (c : string) (n : nat) : option JSNumber :=
  if String.eqb c "__proto__" then None
  else if inheritsMethod c
       then match n with
            | 0 => None
            | 1 => Some NaN
            | S (S k) => Some (Num (S k))
            end
       else match n with
            | 0 => None
            | S _ => Some (Num n)
            end.

(** The value of a base-36 digit and of a base-36 numeral. *)
Definition value36 (c : ascii) : Z :=
  if (nat_of_ascii c <? 58)%nat then Z.of_nat (nat_of_ascii c) - 48
  else Z.of_nat (nat_of_ascii c) - 87.

Fixpoint decode36 (v : Z) (s : string) : Z :=
  match s with
  | EmptyString => v
  | String c s' => decode36 (v * 36 + value36 c) s'
  end.

Definition ofStatus (s : Status) : TodoFilter :=
  mkTodoFilter (Some s) None None None None.

(** Not completed. *)
Definition isPending (t : Todo) : bool := negb (todo_completed t).

(** The running statistics after the items [pre] have been tallied. *)
Definition talliedOver (isPast isToday : Z -> bool) (pre : list Todo) (s : TodoStats) : Prop :=
  stats_completed s = countWhere todo_completed pre
  /\ stats_pending s = countWhere isPending pre
  /\ stats_overdue s = countWhere (pendingOverdue isPast isToday) pre
  /\ (forall p, stats_byPriority s !! p = Some (countWhere (hasPriority p) pre))
  /\ (forall c, stats_byCategory s !! c = categoryTally c (countWhere (inCategory c) pre)).

(** The step of [unique]: [x] joins the elements seen unless it is one of
    them. *)
Definition remember {A} `{EqDecision A} (seen : list A) (x : A) : list A :=
  if bool_decide (x ∈ seen) then seen else (seen ++ [x])%list.



(** The notification that [deleteTodo] emits for [todo]. *)
Definition deletedNotice (nid : string) (todo : Todo) : NotificationState :=
  mkNotification nid NSuccess "Todo deleted"
    (Some (quoted (todo_title todo) ++ " has been removed")) (Some 2000%Z) None.

(** The copy that [duplicateTodo] makes of [todo]. *)
Definition copyOf (todo : Todo) (newId : string) (created updated : Z) : Todo :=
  mkTodo newId (todo_title todo ++ " (Copy)") (todo_description todo) false
    (todo_priority todo) (todo_category todo) (todo_dueDate todo)
    created updated (todo_tags todo).

(** The notification that [addTodo] emits for an item titled [title]. *)
Definition createdNotice (nid : string) (title : string) : NotificationState :=
  mkNotification nid NSuccess "Todo created"
    (Some (quoted title ++ " has been added to your list")) (Some 3000%Z) None.

(** The notification of a bulk action on [n] requested ids. *)
Definition bulkNotice (nid title : string) (n : nat) (what : string) : NotificationState :=
  mkNotification nid NSuccess title (Some (pretty n ++ what)) (Some 2000%Z) None.

(** The test of [removeNotification]. *)
Definition keepsId (id : string) (notif : NotificationState) : bool :=
  negb (String.eqb (notif_id notif) id).

(** Sample data for the further properties. *)
Definition stamped (id : string) (createdAt : Z) : Todo :=
  mkTodo id "Buy milk" None false MEDIUM "personal" None createdAt createdAt [].

Definition demoWorld : World :=
  sampleWorld tickingClock [sampleTodo "a" false None; sampleTodo "b" true None].

Definition renameTo (title : string) : UpdateTodoForm :=
  mkUpdateTodoForm (Some title) None None None None None None.

(** The text [{"todos":[{"id":"t1"}],"categories":[]}]. *)
Definition demoExport : string :=
  "{" ++ dquote ++ "todos" ++ dquote ++ ":[{" ++ dquote ++ "id" ++ dquote ++ ":"
  ++ dquote ++ "t1" ++ dquote ++ "}]," ++ dquote ++ "categories" ++ dquote ++ ":[]}".

(** * Properties *)

(** ** [Array.prototype.sort] with a consistent comparator *)

Section ArraySortFacts.
Context {A : Type} (compareFn : A -> A -> Z).

Hypothesis before_total : forall a b, before compareFn a b \/ before compareFn b a.
Hypothesis before_trans :
  forall a b c, before compareFn a b -> before compareFn b c -> before compareFn a c.

Lemma sortInsert_Permutation x l : Permutation (sortInsert compareFn x l) (x :: l).
Proof.
  induction l as [|y l IH]; simpl; [reflexivity|].
  destruct (compareFn x y <=? 0)%Z; [reflexivity|].
  rewrite IH. apply perm_swap.
Qed.

Lemma arraySort_Permutation l : Permutation (arraySort compareFn l) l.
Proof.
  induction l as [|x l IH]; simpl; [reflexivity|].
  rewrite sortInsert_Permutation. by constructor.
Qed.

Lemma sortInsert_StronglySorted x l :
  StronglySorted (before compareFn) l ->
  StronglySorted (before compareFn) (sortInsert compareFn x l).
Proof.
  induction 1 as [|y l Hl IH Hy]; simpl.
  - repeat constructor.
  - destruct (Z.leb_spec (compareFn x y) 0) as [Hxy|Hxy].
    + constructor; [by constructor|].
      constructor; [exact Hxy|].
      eapply Forall_impl; [exact Hy|]. intros z Hz. by eapply before_trans.
    + assert (before compareFn y x) as Hyx.
      { destruct (before_total x y) as [H|H]; [unfold before in H; lia|exact H]. }
      constructor; [exact IH|].
      rewrite sortInsert_Permutation. by constructor.
Qed.

Lemma arraySort_StronglySorted l :
  StronglySorted (before compareFn) (arraySort compareFn l).
Proof.
  induction l as [|x l IH]; simpl; [constructor|].
  by apply sortInsert_StronglySorted.
Qed.
End ArraySortFacts.

(** In a strongly sorted list the relation holds from every earlier to
    every later position. *)
Lemma StronglySorted_lookup_lt {A} (R : A -> A -> Prop) (l : list A) i j a b :
  StronglySorted R l -> l !! i = Some a -> l !! j = Some b -> i < j -> R a b.
Proof.
  intros Hs; revert i j. induction Hs as [|x l Hl IH Hx]; intros i j Hi Hj Hlt.
  - by rewrite lookup_nil in Hi.
  - destruct j as [|j]; [lia|]. destruct i as [|i]; simpl in *.
    + injection Hi as <-. rewrite Forall_forall in Hx. apply Hx.
      by eapply list_elem_of_lookup_2.
    + eapply IH; eauto. lia.
Qed.

(** ** Sorting by due time and by priority *)

Lemma dueDate_asc_total lc a b :
  before (compareTodos lc SortDueDate Asc) a b \/ before (compareTodos lc SortDueDate Asc) b a.
Proof.
  unfold before; simpl. destruct (todo_dueDate a), (todo_dueDate b); lia.
Qed.

Lemma dueDate_asc_trans lc a b c :
  before (compareTodos lc SortDueDate Asc) a b ->
  before (compareTodos lc SortDueDate Asc) b c ->
  before (compareTodos lc SortDueDate Asc) a c.
Proof.
  unfold before; simpl.
  destruct (todo_dueDate a), (todo_dueDate b), (todo_dueDate c); lia.
Qed.

Lemma dueDate_desc_total lc a b :
  before (compareTodos lc SortDueDate Desc) a b \/ before (compareTodos lc SortDueDate Desc) b a.
Proof.
  unfold before; simpl. destruct (todo_dueDate a), (todo_dueDate b); lia.
Qed.

Lemma dueDate_desc_trans lc a b c :
  before (compareTodos lc SortDueDate Desc) a b ->
  before (compareTodos lc SortDueDate Desc) b c ->
  before (compareTodos lc SortDueDate Desc) a c.
Proof.
  unfold before; simpl.
  destruct (todo_dueDate a), (todo_dueDate b), (todo_dueDate c); lia.
Qed.

Lemma priority_total lc o a b :
  before (compareTodos lc SortPriority o) a b \/ before (compareTodos lc SortPriority o) b a.
Proof. unfold before; destruct o; simpl; lia. Qed.

Lemma priority_trans lc o a b c :
  before (compareTodos lc SortPriority o) a b ->
  before (compareTodos lc SortPriority o) b c ->
  before (compareTodos lc SortPriority o) a c.
Proof. unfold before; destruct o; simpl; lia. Qed.

Lemma StronglySorted_weaken {A} (R R' : A -> A -> Prop) (l : list A) :
  (forall a b, R a b -> R' a b) -> StronglySorted R l -> StronglySorted R' l.
Proof.
  intros HR. induction 1 as [|x l Hl IH Hx]; constructor; [done|].
  eapply Forall_impl; eauto.
Qed.

(** C3, as stated, fails: sorted by due time in direction 'desc', the
    undated item of a two-item list comes out first. *)
Lemma sortTodos_dueDate_desc_puts_undated_first :
  sortTodos byCodePoint
    [sampleTodo "a" false (Some 10%Z); sampleTodo "b" false None] SortDueDate Desc
  = [sampleTodo "b" false None; sampleTodo "a" false (Some 10%Z)]
  /\ ~ undatedLast
        (sortTodos byCodePoint
           [sampleTodo "a" false (Some 10%Z); sampleTodo "b" false None]
           SortDueDate Desc).
Proof.
  split; [reflexivity|].
  intros H.
  specialize (H 0 1 (sampleTodo "b" false None) (sampleTodo "a" false (Some 10%Z))
                eq_refl eq_refl eq_refl).
  assert (1 < 0) by (apply H; discriminate). lia.
Qed.

(** C3, amended: sorted by due time, every undated item stands after
    every dated item in direction 'asc' and before every dated item in
    direction 'desc'; the direction flip negates every comparison,
    whichever the sort key and whether or not the two items are dated. *)
Theorem sortTodos_dueDate_undated_placement (localeCompare : string -> string -> Z)
    (l : list Todo) :
  undatedLast (sortTodos localeCompare l SortDueDate Asc)
  /\ undatedFirst (sortTodos localeCompare l SortDueDate Desc)
  /\ (forall sortBy a b,
        compareTodos localeCompare sortBy Desc a b
        = (- compareTodos localeCompare sortBy Asc a b)%Z).
Proof.
  split; [|split]; [| |reflexivity].
  - intros i j a b Hi Hj Ha Hb.
    destruct (Nat.lt_trichotomy i j) as [Hlt|[->|Hgt]]; [|congruence|done].
    exfalso.
    pose proof (StronglySorted_lookup_lt _ _ i j a b
      (arraySort_StronglySorted _ (dueDate_asc_total localeCompare)
         (dueDate_asc_trans localeCompare) l) Hi Hj Hlt) as Hab.
    unfold before in Hab; simpl in Hab. rewrite Ha in Hab.
    destruct (todo_dueDate b); [lia|done].
  - intros i j a b Hi Hj Ha Hb.
    destruct (Nat.lt_trichotomy i j) as [Hlt|[->|Hgt]]; [done|congruence|].
    exfalso.
    pose proof (StronglySorted_lookup_lt _ _ j i b a
      (arraySort_StronglySorted _ (dueDate_desc_total localeCompare)
         (dueDate_desc_trans localeCompare) l) Hj Hi Hgt) as Hba.
    unfold before in Hba; simpl in Hba. rewrite Ha in Hba.
    destruct (todo_dueDate b); [lia|done].
Qed.

(** C5: sorted by priority, direction 'asc' orders the items by
    descending rank (urgent, high, medium, low) and direction 'desc' by
    ascending rank, both as rearrangements of the input; the ranks are
    low=1, medium=2, high=3, urgent=4, and the comparator is the rank of
    the second item minus the rank of the first before the flip. *)
Theorem sortTodos_priority_order (localeCompare : string -> string -> Z)
    (l : list Todo) :
  StronglySorted rankDescending (sortTodos localeCompare l SortPriority Asc)
  /\ StronglySorted rankAscending (sortTodos localeCompare l SortPriority Desc)
  /\ Permutation (sortTodos localeCompare l SortPriority Asc) l
  /\ Permutation (sortTodos localeCompare l SortPriority Desc) l
  /\ (forall a b,
        comparison localeCompare SortPriority a b
        = (getPriorityValue (todo_priority b) - getPriorityValue (todo_priority a))%Z)
  /\ getPriorityValue LOW = 1%Z /\ getPriorityValue MEDIUM = 2%Z
  /\ getPriorityValue HIGH = 3%Z /\ getPriorityValue URGENT = 4%Z.
Proof.
  repeat split.
  - eapply StronglySorted_weaken;
      [|apply arraySort_StronglySorted;
        [apply priority_total|apply priority_trans]].
    unfold before, rankDescending; simpl; intros; lia.
  - eapply StronglySorted_weaken;
      [|apply arraySort_StronglySorted;
        [apply priority_total|apply priority_trans]].
    unfold before, rankAscending; simpl; intros; lia.
  - apply arraySort_Permutation.
  - apply arraySort_Permutation.
Qed.

(** ** Filtering *)

Lemma filter_sublist {A} (p : A -> bool) (l : list A) : sublist (List.filter p l) l.
Proof.
  induction l as [|x l IH]; simpl; [constructor|].
  destruct (p x); by constructor.
Qed.

Lemma filter_all {A} (p : A -> bool) (l : list A) :
  (forall x, p x = true) -> List.filter p l = l.
Proof.
  intros Hp. induction l as [|x l IH]; simpl; [done|]. by rewrite Hp, IH.
Qed.

Lemma passes_conj toLowerCase f t :
  passes toLowerCase f t
  = statusOk f t && priorityOk f t && categoryOk f t
    && searchOk toLowerCase f t && tagOk f t.
Proof.
  unfold passes.
  by destruct (statusOk f t), (priorityOk f t), (categoryOk f t),
    (searchOk toLowerCase f t), (tagOk f t).
Qed.

(** C6: [filterTodos] returns a sub-list of its input (the kept items, in
    their input order, each of them an input item); with no criteria it
    returns the input unchanged; an item passes exactly when it passes
    each criterion, and a criterion that is absent passes every item. *)
Theorem filterTodos_narrows (toLowerCase : string -> string)
    (l : list Todo) (f : TodoFilter) :
  sublist (filterTodos toLowerCase l f) l
  /\ filterTodos toLowerCase l f ⊆ l
  /\ filterTodos toLowerCase l noCriteria = l
  /\ (forall t,
       passes toLowerCase f t
       = statusOk f t && priorityOk f t && categoryOk f t
         && searchOk toLowerCase f t && tagOk f t)
  /\ (forall p c s g t, statusOk (mkTodoFilter None p c s g) t = true)
  /\ (forall st c s g t, priorityOk (mkTodoFilter st None c s g) t = true)
  /\ (forall st p s g t, categoryOk (mkTodoFilter st p None s g) t = true)
  /\ (forall st p c g t, searchOk toLowerCase (mkTodoFilter st p c None g) t = true)
  /\ (forall st p c s t, tagOk (mkTodoFilter st p c s None) t = true).
Proof.
  split; [apply filter_sublist|].
  split; [apply sublist_subseteq, filter_sublist|].
  split; [by apply filter_all|].
  split; [intros; apply passes_conj|].
  repeat split.
Qed.

(** ** Statistics *)

Lemma bucket_alter s p q :
  is_Some (stats_byPriority s !! p) ->
  default 0 (alter incr p (stats_byPriority s) !! q)
  = (if decide (p = q) then 1 else 0) + bucket s q.
Proof.
  intros [n Hn]. unfold bucket. rewrite lookup_alter.
  destruct (decide (p = q)) as [->|]; [|done].
  by rewrite Hn.
Qed.

Lemma tally_invariant isPast isToday (l : list Todo) (s : TodoStats) :
  (forall p, is_Some (stats_byPriority s !! p)) ->
  let s' := fold_left (tally isPast isToday) l s in
  stats_total s' = stats_total s
  /\ stats_completed s' + stats_pending s' = stats_completed s + stats_pending s + length l
  /\ sumByPriority s' = sumByPriority s + length l
  /\ (forall p, is_Some (stats_byPriority s' !! p)).
Proof.
  revert s. induction l as [|t l IH]; intros s Hs; simpl.
  - repeat split; [lia|unfold sumByPriority; lia|done].
  - assert (forall p, is_Some (stats_byPriority (tally isPast isToday s t) !! p)) as Hs'.
    { intros p. simpl. rewrite lookup_alter.
      destruct (decide (todo_priority t = p)); [|done].
      subst; destruct (Hs (todo_priority t)) as [n ->]; by eexists. }
    destruct (IH _ Hs') as (Ht & Hc & Hp & Hall).
    split; [by rewrite Ht|]. split; [|split; [|done]].
    + rewrite Hc. simpl. unfold incr. destruct (todo_completed t); lia.
    + rewrite Hp. unfold sumByPriority at 1, bucket at 1 2 3 4. simpl.
      rewrite !bucket_alter by done. unfold sumByPriority.
      destruct (todo_priority t); simpl; lia.
Qed.

(** C7: the statistics of any list satisfy completed + pending = total,
    the four priority buckets sum to total, and each of the four buckets
    is present; before any item is tallied each bucket holds 0. *)
Theorem calculateTodoStats_totals (isPast isToday : Z -> bool) (l : list Todo) :
  stats_completed (calculateTodoStats isPast isToday l)
    + stats_pending (calculateTodoStats isPast isToday l)
  = stats_total (calculateTodoStats isPast isToday l)
  /\ sumByPriority (calculateTodoStats isPast isToday l)
     = stats_total (calculateTodoStats isPast isToday l)
  /\ stats_total (calculateTodoStats isPast isToday l) = length l
  /\ (forall p, is_Some (stats_byPriority (calculateTodoStats isPast isToday l) !! p))
  /\ (forall p, stats_byPriority (emptyStats (length l)) !! p = Some 0)
  /\ calculateTodoStats isPast isToday [] = emptyStats 0.
Proof.
  assert (forall n p, stats_byPriority (emptyStats n) !! p = Some 0) as H0.
  { intros n []; reflexivity. }
  destruct (tally_invariant isPast isToday l (emptyStats (length l)))
    as (Ht & Hc & Hp & Hall).
  { intros p. rewrite H0. by eexists. }
  unfold calculateTodoStats.
  repeat split; try done.
  - rewrite Hc, Ht. simpl. lia.
  - rewrite Hp, Ht. unfold sumByPriority, bucket. rewrite !H0. simpl. lia.
Qed.

(** ** Store actions *)

Ltac unfold_action :=
  unfold exec, eval, addNotification, removeNotification, getTodoById,
    getCategoryById, generateId, randomText, newDate, setTimeout, set, get,
    bind, ret, with_store in *.

Lemma addNotification_store n w :
  store (exec (addNotification n) w)
  = set_notifications
      (notifications (store w)
         ++ [mkNotification (eval generateId w) (in_type n) (in_title n)
               (in_message n) (Some (durationOrDefault (in_duration n)))
               (in_persistent n)])
      (store w).
Proof.
  unfold_action; simpl.
  by destruct (negb (isTrue (in_persistent n))
               && negb (durationOrDefault (in_duration n) =? 0)%Z).
Qed.

Lemma mapM_cons {A B} (g : A -> M B) x xs w :
  mapM g (x :: xs) w
  = let '(y, w1) := g x w in let '(ys, w2) := mapM g xs w1 in (y :: ys, w2).
Proof. reflexivity. Qed.

Section Touch.
Variable sel : Todo -> bool.
Variable f : Todo -> Z -> Todo.

Lemma mapM_touch l w :
  Forall2 (touched sel f) l
    (eval (mapM (fun todo => if sel todo
                             then let! now := newDate in ret (f todo now)
                             else ret todo) l) w)
  /\ store (exec (mapM (fun todo => if sel todo
                                    then let! now := newDate in ret (f todo now)
                                    else ret todo) l) w) = store w.
Proof.
  set (g := fun todo => if sel todo
                        then let! now := newDate in ret (f todo now)
                        else ret todo).
  revert w. induction l as [|t l IH]; intros w.
  - split; [constructor|reflexivity].
  - unfold exec, eval in *. rewrite mapM_cons.
    assert (g t w = if sel t then (f t (fst (newDate w)), snd (newDate w))
                    else (t, w)) as ->.
    { unfold g. by destruct (sel t). }
    destruct (sel t) eqn:Ht.
    + specialize (IH (snd (newDate w))).
      destruct (mapM g l (snd (newDate w))) as [l' w''].
      simpl in *. destruct IH as [IH1 IH2].
      split; [|done].
      constructor; [|done]. unfold touched. rewrite Ht. by eexists.
    + specialize (IH w).
      destruct (mapM g l w) as [l' w''].
      simpl in *. destruct IH as [IH1 IH2].
      split; [|done].
      constructor; [|done]. unfold touched. by rewrite Ht.
Qed.

(** [find] by a key that [f] preserves sees the image of what it saw. *)
Lemma find_touched (key : Todo -> bool) l l' :
  (forall t now, key (f t now) = key t) ->
  Forall2 (touched sel f) l l' ->
  match List.find key l with
  | Some t => exists t', List.find key l' = Some t' /\ touched sel f t t'
  | None => List.find key l' = None
  end.
Proof.
  intros Hkey. induction 1 as [|t t' l l' Ht Hl IH]; simpl; [done|].
  assert (key t' = key t) as ->.
  { unfold touched in Ht. destruct (sel t); [|by subst].
    destruct Ht as [now ->]. apply Hkey. }
  destruct (key t); [|exact IH]. by exists t'.
Qed.
End Touch.

Lemma exec_bind {A B} (m : M A) (f : A -> M B) w :
  exec (bind m f) w = exec (f (eval m w)) (exec m w).
Proof. unfold exec, eval, bind. by destruct (m w). Qed.

Lemma eval_bind {A B} (m : M A) (f : A -> M B) w :
  eval (bind m f) w = eval (f (eval m w)) (exec m w).
Proof. unfold exec, eval, bind. by destruct (m w). Qed.

(** Runs the prefix of an action made of binds and store primitives. *)
Ltac step_action :=
  repeat first
    [ rewrite exec_bind | rewrite eval_bind
    | progress change (@eval TodoStore get ?w) with (store w)
    | progress change (@exec TodoStore get ?w) with w
    | progress change (exec (set ?f) ?w) with (with_store f w)
    | progress change (exec (ret ?a) ?w) with w
    | progress change (eval (ret ?a) ?w) with a
    | progress change (exec (getTodoById ?i) ?w) with w
    | progress change (eval (getTodoById ?i) ?w)
        with (List.find (hasId i) (todos (store w)))
    | progress change (store (with_store ?f ?w)) with (f (store w))
    | progress cbv beta iota ].

Lemma updateTodo_spec id upd w :
  exists l',
    Forall2 (touched (hasId id) (fun todo now => applyUpdates todo upd now))
      (todos (store w)) l'
    /\ todos (store (exec (updateTodo id upd) w)) = l'
    /\ categories (store (exec (updateTodo id upd) w)) = categories (store w)
    /\ match List.find (hasId id) l' with
       | Some todo =>
           exists nid,
             notifications (store (exec (updateTodo id upd) w))
             = (notifications (store w) ++ [updatedNotice nid todo])%list
       | None =>
           notifications (store (exec (updateTodo id upd) w))
           = notifications (store w)
       end.
Proof.
  pose proof (mapM_touch (hasId id) (fun todo now => applyUpdates todo upd now)
                (todos (store w)) w) as [H1 H2].
  unfold updateTodo. step_action.
  change (fun todo : Todo => String.eqb (todo_id todo) id) with (hasId id).
  set (l' := eval _ w) in *. set (w1 := exec _ w) in *.
  exists l'. split; [done|].
  destruct (List.find (hasId id) (todos (set_todos l' (store w1)))) as [t|] eqn:E;
    simpl in E; rewrite E.
  - rewrite addNotification_store. simpl. rewrite H2.
    repeat split. by eexists.
  - step_action. simpl. by rewrite H2.
Qed.

Lemma applyUpdates_onlyCompleted t c now :
  applyUpdates t (onlyCompleted c) now = restamp (setCompleted c t) now.
Proof. reflexivity. Qed.

Lemma toggleTodo_spec id w t :
  eval (getTodoById id) w = Some t ->
  exists l' now nid1 nid2,
    Forall2 (touched (hasId id)
               (fun todo now => restamp (setCompleted (negb (todo_completed t)) todo) now))
      (todos (store w)) l'
    /\ todos (store (exec (toggleTodo id) w)) = l'
    /\ categories (store (exec (toggleTodo id) w)) = categories (store w)
    /\ List.find (hasId id) l'
       = Some (restamp (setCompleted (negb (todo_completed t)) t) now)
    /\ notifications (store (exec (toggleTodo id) w))
       = (notifications (store w)
            ++ [updatedNotice nid1 (restamp (setCompleted (negb (todo_completed t)) t) now);
                toggledNotice nid2 t (negb (todo_completed t))])%list.
Proof.
  intros Hfind. change (List.find (hasId id) (todos (store w)) = Some t) in Hfind.
  unfold toggleTodo. step_action. rewrite Hfind. step_action.
  destruct (updateTodo_spec id (onlyCompleted (negb (todo_completed t))) w)
    as (l' & HF & Htodos & Hcats & Hnot).
  pose proof (find_touched (hasId id)
                (fun todo now =>
                   applyUpdates todo (onlyCompleted (negb (todo_completed t))) now)
                (hasId id) _ _ (fun _ _ => eq_refl) HF) as Hf.
  rewrite Hfind in Hf. destruct Hf as (t' & Ht' & Htouch).
  rewrite Ht' in Hnot. destruct Hnot as [nid1 Hnot].
  unfold touched in Htouch.
  assert (hasId id t = true) as Hid.
  { apply find_some in Hfind. tauto. }
  rewrite Hid in Htouch. destruct Htouch as [now ->].
  exists l', now, nid1. eexists.
  rewrite addNotification_store. simpl. rewrite Htodos, Hcats, Hnot.
  repeat split; try done.
  rewrite <- app_assoc. reflexivity.
Qed.

(** C10: one [toggleTodo] on the id of a present item appends exactly two
    notifications, first the 'Todo updated' of the inner [updateTodo] and
    then its own, titled 'Todo completed' or 'Todo reopened' according to
    the completion flag the item has after the call. *)
Theorem toggleTodo_notifications (id : string) (w : World) (t : Todo) :
  eval (getTodoById id) w = Some t ->
  exists n1 n2 t',
    notifications (store (exec (toggleTodo id) w))
    = (notifications (store w) ++ [n1; n2])%list
    /\ notif_title n1 = "Todo updated" /\ notif_type n1 = NSuccess
    /\ eval (getTodoById id) (exec (toggleTodo id) w) = Some t'
    /\ todo_completed t' = negb (todo_completed t)
    /\ notif_title n2 = (if todo_completed t' then "Todo completed" else "Todo reopened")
    /\ notif_type n2 = NSuccess.
Proof.
  intros Hfind.
  destruct (toggleTodo_spec id w t Hfind)
    as (l' & now & nid1 & nid2 & HF & Htodos & Hcats & Hfind' & Hnot).
  eexists _, _, _. split; [exact Hnot|].
  change (eval (getTodoById id) (exec (toggleTodo id) w))
    with (List.find (hasId id) (todos (store (exec (toggleTodo id) w)))).
  rewrite Htodos, Hfind'. repeat split.
Qed.

Lemma toggleTodo_notifications_witness :
  eval (getTodoById "a") (sampleWorld tickingClock [sampleTodo "a" false None])
  = Some (sampleTodo "a" false None)
  /\ exists n1 n2 t',
    notifications
      (store (exec (toggleTodo "a") (sampleWorld tickingClock [sampleTodo "a" false None])))
    = (notifications (store (sampleWorld tickingClock [sampleTodo "a" false None]))
         ++ [n1; n2])%list
    /\ notif_title n1 = "Todo updated" /\ notif_type n1 = NSuccess
    /\ eval (getTodoById "a")
         (exec (toggleTodo "a") (sampleWorld tickingClock [sampleTodo "a" false None]))
       = Some t'
    /\ todo_completed t' = negb (todo_completed (sampleTodo "a" false None))
    /\ notif_title n2 = (if todo_completed t' then "Todo completed" else "Todo reopened")
    /\ notif_type n2 = NSuccess.
Proof.
  split; [reflexivity|].
  apply (toggleTodo_notifications "a"
           (sampleWorld tickingClock [sampleTodo "a" false None])
           (sampleTodo "a" false None)).
  reflexivity.
Defined.

Lemma touched_compose sel f1 f2 f l0 l1 l2 :
  (forall t now, sel (f1 t now) = sel t) ->
  (forall t n1 n2, f2 (f1 t n1) n2 = f t n2) ->
  Forall2 (touched sel f1) l0 l1 -> Forall2 (touched sel f2) l1 l2 ->
  Forall2 (touched sel f) l0 l2.
Proof.
  intros Hsel Hf H01. revert l2.
  induction H01 as [|a b l0 l1 Hab H01 IH]; intros l2 H12; inv H12; constructor; auto.
  unfold touched in *. destruct (sel a) eqn:Ha.
  - destruct Hab as [n1 ->]. rewrite Hsel, Ha in *.
    match goal with H : exists _, _ |- _ => destruct H as [n2 ->] end.
    exists n2. apply Hf.
  - subst b. by rewrite Ha in *.
Qed.

Lemma touched_on_members sel (f g : Todo -> Z -> Todo) (l l' : list Todo) :
  (forall x now, x ∈ l -> sel x = true -> f x now = g x now) ->
  Forall2 (touched sel f) l l' -> Forall2 (touched sel g) l l'.
Proof.
  intros Hfg H. induction H as [|a b l l' Hab Hl IH]; constructor.
  - unfold touched in *. destruct (sel a) eqn:Ha; [|done].
    destruct Hab as [now ->]. exists now. apply Hfg; [by left|done].
  - apply IH. intros x now Hx. apply Hfg. by right.
Qed.

Lemma NoDup_ids_same (l : list Todo) (x y : Todo) :
  NoDup (map todo_id l) -> x ∈ l -> y ∈ l -> todo_id x = todo_id y -> x = y.
Proof.
  induction l as [|z l IH]; simpl; intros Hnd Hx Hy Heq.
  - by apply elem_of_nil in Hx.
  - apply NoDup_cons in Hnd as [Hz Hnd].
    apply elem_of_cons in Hx as [->|Hx]; apply elem_of_cons in Hy as [->|Hy].
    + done.
    + exfalso. apply Hz. rewrite Heq. apply list_elem_of_In, in_map.
      by apply list_elem_of_In.
    + exfalso. apply Hz. rewrite <- Heq. apply list_elem_of_In, in_map.
      by apply list_elem_of_In.
    + by apply IH.
Qed.

(** C9, as stated, fails: when two items share an identifier, as after an
    import, both toggles give the later item the flag computed from the
    earlier one, and the later item, completed at first, ends not
    completed. *)
Lemma toggleTodo_twice_changes_shadowed_item :
  map todo_completed
    (todos (store (exec (toggleTodo "a")
                     (exec (toggleTodo "a")
                        (sampleWorld tickingClock
                           [sampleTodo "a" false None; sampleTodo "a" true None])))))
  = [false; false]
  /\ ~ flagsRestored
        (sampleWorld tickingClock [sampleTodo "a" false None; sampleTodo "a" true None]).
Proof.
  split; [reflexivity|].
  intros H.
  destruct (H 1 (sampleTodo "a" true None) eq_refl) as (t' & Ht' & Hflag).
  vm_compute in Ht'. injection Ht' as <-. discriminate Hflag.
Qed.

(** C9, amended: for the item that lookup by [id] finds, which is every
    item with this id when identifiers are unique, one [toggleTodo] flips
    the completion flag and a second one restores it; after the two calls
    that item equals the original but for its last-modified timestamp,
    every item with another id is unchanged and the categories are
    unchanged.  An item that shares the id with the item found ends with
    the flag of the item found; with unique identifiers there is none, and
    every item of the store is then unchanged or changed in its
    last-modified timestamp only. *)
Theorem toggleTodo_twice_restores (id : string) (w : World) (t : Todo) :
  eval (getTodoById id) w = Some t ->
  (exists t1,
     eval (getTodoById id) (exec (toggleTodo id) w) = Some t1
     /\ todo_completed t1 = negb (todo_completed t))
  /\ (exists now,
        eval (getTodoById id) (exec (toggleTodo id) (exec (toggleTodo id) w))
        = Some (restamp t now))
  /\ Forall2
       (touched (hasId id)
          (fun old now => restamp (setCompleted (todo_completed t) old) now))
       (todos (store w))
       (todos (store (exec (toggleTodo id) (exec (toggleTodo id) w))))
  /\ categories (store (exec (toggleTodo id) (exec (toggleTodo id) w)))
     = categories (store w)
  /\ (NoDup (map todo_id (todos (store w))) ->
      Forall2 (touched (hasId id) restamp)
        (todos (store w))
        (todos (store (exec (toggleTodo id) (exec (toggleTodo id) w))))).
Proof.
  intros Hfind.
  destruct (toggleTodo_spec id w t Hfind)
    as (l1 & now1 & ? & ? & HF1 & Htodos1 & Hcats1 & Hfind1 & _).
  set (t1 := restamp (setCompleted (negb (todo_completed t)) t) now1) in *.
  assert (eval (getTodoById id) (exec (toggleTodo id) w) = Some t1) as Hlook1.
  { change (List.find (hasId id) (todos (store (exec (toggleTodo id) w))) = Some t1).
    by rewrite Htodos1. }
  destruct (toggleTodo_spec id _ t1 Hlook1)
    as (l2 & now2 & ? & ? & HF2 & Htodos2 & Hcats2 & Hfind2 & _).
  assert (Forall2
            (touched (hasId id)
               (fun old now => restamp (setCompleted (todo_completed t) old) now))
            (todos (store w))
            (todos (store (exec (toggleTodo id) (exec (toggleTodo id) w))))) as HF.
  { rewrite Htodos2, Htodos1 in *.
    eapply touched_compose; [| |exact HF1|exact HF2].
    + reflexivity.
    + intros t0 n1 n2. subst t1. simpl. by rewrite negb_involutive. }
  split; [by exists t1|].
  split; [|split; [exact HF|split]].
  - exists now2.
    change (List.find (hasId id)
              (todos (store (exec (toggleTodo id) (exec (toggleTodo id) w))))
            = Some (restamp t now2)).
    rewrite Htodos2, Hfind2. subst t1. simpl.
    rewrite negb_involutive. by destruct t.
  - by rewrite Hcats2, Hcats1.
  - intros Hnd. eapply touched_on_members; [|exact HF].
    intros item now Hitem Hsel.
    change (List.find (hasId id) (todos (store w)) = Some t) in Hfind.
    apply find_some in Hfind as [Hin Hid].
    assert (item = t) as ->.
    { apply (NoDup_ids_same (todos (store w))); [done|done|by apply list_elem_of_In|].
      unfold hasId in *. apply String.eqb_eq in Hsel, Hid. congruence. }
    by destruct t.
Qed.

Lemma toggleTodo_twice_restores_witness :
  eval (getTodoById "b")
    (sampleWorld tickingClock [sampleTodo "a" false None; sampleTodo "b" true None])
  = Some (sampleTodo "b" true None)
  /\ exists now,
       eval (getTodoById "b")
         (exec (toggleTodo "b")
            (exec (toggleTodo "b")
               (sampleWorld tickingClock
                  [sampleTodo "a" false None; sampleTodo "b" true None])))
       = Some (restamp (sampleTodo "b" true None) now).
Proof.
  split; [reflexivity|].
  apply (toggleTodo_twice_restores "b"
           (sampleWorld tickingClock [sampleTodo "a" false None; sampleTodo "b" true None])
           (sampleTodo "b" true None)).
  reflexivity.
Defined.

(** ** Creating an item *)

Lemma find_app_None {A} (p : A -> bool) (l l' : list A) :
  List.find p l = None -> List.find p (l ++ l') = List.find p l'.
Proof.
  induction l as [|x l IH]; simpl; [done|].
  destruct (p x); [done|exact IH].
Qed.

Lemma find_hasId_None id (l : list Todo) :
  ~ In id (map todo_id l) -> List.find (hasId id) l = None.
Proof.
  induction l as [|x l IH]; simpl; [done|]. intros Hnot.
  unfold hasId at 1. destruct (String.eqb_spec (todo_id x) id) as [Heq|_].
  - exfalso. apply Hnot. by left.
  - apply IH. intros Hin. apply Hnot. by right.
Qed.

(** C8, as stated, fails in two ways.  When the clock advances between
    the two [new Date()] of [addTodo], the timestamps of the new item
    differ; and when the generated identifier is already the identifier of
    an item, it is not fresh and lookup answers the older item, here a
    completed one. *)
Lemma addTodo_not_always_fresh_or_equally_stamped :
  ~ createdFresh sampleDraft (sampleWorld tickingClock [])
  /\ ~ createdFresh sampleDraft
         (sampleWorld steadyClock [sampleTodo "k7q0loyw3v28" true None]).
Proof.
  split.
  - intros (_ & t & Hlook & _ & Hstamp).
    vm_compute in Hlook. injection Hlook as <-. vm_compute in Hstamp. discriminate.
  - intros (Hfresh & _). apply Hfresh. vm_compute. by left.
Qed.

Lemma find_app_Some {A} (p : A -> bool) (l l' : list A) :
  List.find p (l ++ l')
  = match List.find p l with
    | Some x => Some x
    | None => List.find p l'
    end.
Proof.
  induction l as [|x l IH]; simpl; [done|].
  destruct (p x); [done|exact IH].
Qed.

Lemma find_hasId_snoc id (l : list Todo) (t : Todo) :
  todo_id t = id ->
  List.find (hasId id) (l ++ [t]) = Some (default t (List.find (hasId id) l)).
Proof.
  intros Hid. rewrite find_app_Some.
  destruct (List.find (hasId id) l); [reflexivity|].
  simpl. unfold hasId. by rewrite Hid, String.eqb_refl.
Qed.

(** C8, amended: for every draft, [addTodo] appends one item that carries
    the generated identifier, is not completed, takes its fields from the
    draft and is stamped with the next two readings of the clock, so that
    its creation and last-modified timestamps are equal whenever those two
    readings are.  Lookup by the generated identifier afterwards answers
    the first item with it: that new item when the identifier is the
    identifier of no existing item, and otherwise the existing item that
    lookup answered before. *)
Theorem addTodo_then_lookup (draft : CreateTodoForm) (w : World) :
  exists t,
    todos (store (exec (addTodo draft) w)) = (todos (store w) ++ [t])%list
    /\ todo_id t = eval generateId w
    /\ todo_completed t = false
    /\ todo_title t = form_title draft
    /\ todo_description t = form_description draft
    /\ todo_priority t = form_priority draft
    /\ todo_category t = form_category draft
    /\ todo_dueDate t = form_dueDate draft
    /\ todo_tags t = form_tags draft
    /\ todo_createdAt t = clock w (S (clockReads w))
    /\ todo_updatedAt t = clock w (S (S (clockReads w)))
    /\ (clock w (S (clockReads w)) = clock w (S (S (clockReads w))) ->
        todo_createdAt t = todo_updatedAt t)
    /\ eval (getTodoById (eval generateId w)) (exec (addTodo draft) w)
       = Some (default t (eval (getTodoById (eval generateId w)) w))
    /\ (~ In (eval generateId w) (map todo_id (todos (store w))) ->
        eval (getTodoById (eval generateId w)) (exec (addTodo draft) w) = Some t).
Proof.
  eexists.
  unfold addTodo. step_action. rewrite addNotification_store. simpl.
  rewrite find_hasId_snoc by reflexivity.
  do 11 (split; [reflexivity|]). split; [simpl; auto|]. split; [reflexivity|].
  intros Hfresh. by rewrite (find_hasId_None _ _ Hfresh).
Qed.

Lemma addTodo_then_lookup_witness :
  ~ In (eval generateId (sampleWorld steadyClock [sampleTodo "a" true None]))
       (map todo_id (todos (store (sampleWorld steadyClock [sampleTodo "a" true None]))))
  /\ exists t,
       eval (getTodoById (eval generateId (sampleWorld steadyClock [sampleTodo "a" true None])))
         (exec (addTodo sampleDraft) (sampleWorld steadyClock [sampleTodo "a" true None]))
       = Some t
       /\ todo_completed t = false
       /\ todo_createdAt t = todo_updatedAt t.
Proof.
  assert (~ In (eval generateId (sampleWorld steadyClock [sampleTodo "a" true None]))
            (map todo_id
               (todos (store (sampleWorld steadyClock [sampleTodo "a" true None])))))
    as Hfresh.
  { vm_compute. intros [H|[]]. discriminate H. }
  split; [exact Hfresh|].
  destruct (addTodo_then_lookup sampleDraft
              (sampleWorld steadyClock [sampleTodo "a" true None]))
    as (t & _ & _ & Hdone & _ & _ & _ & _ & _ & _ & _ & _ & Hstamp & _ & Hlook).
  exists t. split; [exact (Hlook Hfresh)|]. split; [exact Hdone|].
  apply Hstamp. reflexivity.
Defined.

(** ** Importing *)

(** C1, as stated, fails on malformed documents.  The text [{}] of its own
    example parses, no collection is touched, and the one notification
    appended is of type 'success'.  The text [{"todos":[null,42]}] parses
    too: its two elements are appended to the items as they are, and the
    notification is again a success. *)
Lemma importData_accepts_malformed_documents :
  (Json.parse "{}" = Some (JObject [])
   /\ (exists n,
         notifications
           (store (exec (importData Json.parse sampleAsTodo sampleAsCategory "{}")
                     (sampleWorld tickingClock [sampleTodo "a" false None])))
         = [n]
         /\ notif_type n = NSuccess /\ notif_title n = "Data imported")
   /\ ~ failsClosed Json.parse sampleAsTodo sampleAsCategory "{}"
          (sampleWorld tickingClock [sampleTodo "a" false None]))
  /\ (Json.parse junkDocument = Some (JObject [("todos", JArray [JNull; JNumber "42"])])
      /\ todos (store (exec (importData Json.parse sampleAsTodo sampleAsCategory
                               junkDocument)
                         (sampleWorld tickingClock [sampleTodo "a" false None])))
         = [sampleTodo "a" false None; sampleAsTodo JNull; sampleAsTodo (JNumber "42")]
      /\ (exists n,
            notifications
              (store (exec (importData Json.parse sampleAsTodo sampleAsCategory
                              junkDocument)
                        (sampleWorld tickingClock [sampleTodo "a" false None])))
            = [n]
            /\ notif_type n = NSuccess)
      /\ ~ failsClosed Json.parse sampleAsTodo sampleAsCategory junkDocument
             (sampleWorld tickingClock [sampleTodo "a" false None])).
Proof.
  split.
  - split; [reflexivity|]. split.
    + eexists. split; [vm_compute; reflexivity|]. split; reflexivity.
    + intros (_ & _ & n & Hn & Htype).
      vm_compute in Hn. injection Hn as <-. discriminate Htype.
  - split; [vm_compute; reflexivity|]. split; [vm_compute; reflexivity|]. split.
    + eexists. split; [vm_compute; reflexivity|]. reflexivity.
    + intros (Htodos & _). vm_compute in Htodos. discriminate Htodos.
Qed.

(** C1, amended: for every text, [importData] appends exactly one
    notification.  When the text does not parse, or parses to [null], the
    notification is of type 'error' ('Import failed'), none of type
    'success' is emitted and both collections are unchanged.  For every
    other text, however malformed, the notification is of type 'success'
    ('Data imported'); the elements of [todos], when it is an array, are
    appended to the items as they are, and the items are unchanged when it
    is not; likewise for [categories]. *)
Theorem importData_outcome (parse : string -> option JSValue)
    (asTodo : JSValue -> Todo) (asCategory : JSValue -> Category)
    (text : string) (w : World) :
  todos (store (exec (importData parse asTodo asCategory text) w))
  = (todos (store w) ++ map asTodo (elementsAt (parse text) "todos"))%list
  /\ categories (store (exec (importData parse asTodo asCategory text) w))
     = (categories (store w) ++ map asCategory (elementsAt (parse text) "categories"))%list
  /\ (exists n,
        notifications (store (exec (importData parse asTodo asCategory text) w))
        = (notifications (store w) ++ [n])%list
        /\ notif_type n = (if importThrows (parse text) then NError else NSuccess)
        /\ notif_title n
           = (if importThrows (parse text) then "Import failed" else "Data imported"))
  /\ (importThrows (parse text) = true ->
      todos (store (exec (importData parse asTodo asCategory text) w)) = todos (store w)
      /\ categories (store (exec (importData parse asTodo asCategory text) w))
         = categories (store w))
  /\ (elementsAt (parse text) "todos" = [] ->
      todos (store (exec (importData parse asTodo asCategory text) w)) = todos (store w))
  /\ (elementsAt (parse text) "categories" = [] ->
      categories (store (exec (importData parse asTodo asCategory text) w))
      = categories (store w)).
Proof.
  assert (todos (store (exec (importData parse asTodo asCategory text) w))
          = (todos (store w) ++ map asTodo (elementsAt (parse text) "todos"))%list
          /\ categories (store (exec (importData parse asTodo asCategory text) w))
             = (categories (store w)
                  ++ map asCategory (elementsAt (parse text) "categories"))%list
          /\ exists n,
               notifications (store (exec (importData parse asTodo asCategory text) w))
               = (notifications (store w) ++ [n])%list
               /\ notif_type n = (if importThrows (parse text) then NError else NSuccess)
               /\ notif_title n
                  = (if importThrows (parse text) then "Import failed"
                     else "Data imported")) as (Htodos & Hcats & Hnot).
  { unfold importData, importTry, elementsAt, arrayAt.
    destruct (parse text) as [data|].
    - destruct (getProp data "todos") as [dataTodos|] eqn:Etodos.
      + destruct (getProp data "categories") as [dataCategories|] eqn:Ecats.
        * assert (importThrows (Some data) = false) as -> by (by destruct data).
          destruct (asArray dataTodos), (asArray dataCategories);
            step_action; rewrite addNotification_store; simpl;
            rewrite ?app_nil_r;
            (split; [done|]); (split; [done|]);
            (eexists; split; [reflexivity|by split]).
        * destruct data; discriminate.
      + assert (data = JNull) as -> by (by destruct data).
        step_action. rewrite addNotification_store. simpl. rewrite !app_nil_r.
        split; [done|]. split; [done|]. eexists; split; [reflexivity|by split].
    - step_action. rewrite addNotification_store. simpl. rewrite !app_nil_r.
      split; [done|]. split; [done|]. eexists; split; [reflexivity|by split]. }
  split; [exact Htodos|]. split; [exact Hcats|]. split; [exact Hnot|].
  split; [|split].
  - intros Hthrows. rewrite Htodos, Hcats.
    assert (forall k, elementsAt (parse text) k = []) as Hnone.
    { intros k. destruct (parse text) as [[]|]; try discriminate; reflexivity. }
    by rewrite !Hnone, !app_nil_r.
  - intros Hnone. by rewrite Htodos, Hnone, app_nil_r.
  - intros Hnone. by rewrite Hcats, Hnone, app_nil_r.
Qed.

Lemma importData_outcome_witness :
  importThrows (Json.parse "{ todos: ") = true
  /\ todos (store (exec (importData Json.parse sampleAsTodo sampleAsCategory "{ todos: ")
                     (sampleWorld tickingClock [sampleTodo "a" false None])))
     = [sampleTodo "a" false None]
  /\ exists n,
       notifications
         (store (exec (importData Json.parse sampleAsTodo sampleAsCategory "{ todos: ")
                   (sampleWorld tickingClock [sampleTodo "a" false None])))
       = [n]
       /\ notif_type n = NError.
Proof.
  split; [reflexivity|].
  destruct (importData_outcome Json.parse sampleAsTodo sampleAsCategory
              "{ todos: " (sampleWorld tickingClock [sampleTodo "a" false None]))
    as (_ & _ & (n & Hn & Htype & _) & Hclosed & _).
  split; [exact (proj1 (Hclosed eq_refl))|].
  exists n. split; [exact Hn|exact Htype].
Defined.

(** With an array [todos], the elements are appended to the existing
    items, which stay in place, and the notification is a success. *)
Lemma importData_appends (parse : string -> option JSValue)
    (asTodo : JSValue -> Todo) (asCategory : JSValue -> Category)
    (text : string) (w : World) data xs :
  parse text = Some data ->
  arrayAt data "todos" = Some xs ->
  todos (store (exec (importData parse asTodo asCategory text) w))
  = (todos (store w) ++ map asTodo xs)%list.
Proof.
  intros Hparse Harr. unfold importData, importTry. rewrite Hparse.
  unfold arrayAt in Harr.
  destruct (getProp data "todos") as [dataTodos|] eqn:Etodos; [|discriminate].
  rewrite Harr.
  destruct (getProp data "categories") as [dataCategories|] eqn:Ecats.
  - destruct (asArray dataCategories); step_action;
      by rewrite addNotification_store.
  - destruct data; discriminate.
Qed.

(** ** Notifications and their timers *)

(** X30: a persistent notification schedules no timer. *)
Lemma addNotification_persistent_no_timer (n : NotificationInput) (w : World) :
  in_persistent n = Some true ->
  timers (exec (addNotification n) w) = timers w.
Proof.
  intros Hp. unfold addNotification. step_action. by rewrite Hp.
Qed.

Lemma addNotification_persistent_no_timer_witness :
  in_persistent (mkNotificationInput NWarning "Offline" None None (Some true)) = Some true
  /\ timers (exec (addNotification
                     (mkNotificationInput NWarning "Offline" None None (Some true)))
               demoWorld)
     = timers demoWorld.
Proof.
  split; [reflexivity|].
  apply (addNotification_persistent_no_timer
           (mkNotificationInput NWarning "Offline" None None (Some true)) demoWorld).
  reflexivity.
Defined.

(** Any other notification schedules one, whatever its duration: the
    guard on the duration never fails, since the fallback has replaced a
    zero duration before the guard reads it. *)
Lemma addNotification_schedules_timer (n : NotificationInput) (w : World) :
  isTrue (in_persistent n) = false ->
  timers (exec (addNotification n) w)
  = (timers w ++ [mkTimer (durationOrDefault (in_duration n)) (eval generateId w)])%list
  /\ durationOrDefault (in_duration n) <> 0%Z.
Proof.
  intros Hp.
  assert (durationOrDefault (in_duration n) <> 0%Z) as Hd.
  { unfold durationOrDefault. destruct (in_duration n) as [d|]; [|done].
    destruct (Z.eqb_spec d 0); [done|done]. }
  split; [|exact Hd].
  unfold addNotification. step_action. rewrite Hp.
  destruct (Z.eqb_spec (durationOrDefault (in_duration n)) 0); [done|].
  reflexivity.
Qed.

Lemma durationOrDefault_absent : durationOrDefault None = 5000%Z.
Proof. reflexivity. Qed.

(** C2, on the code: a notification added with duration 0 and not marked
    persistent is stored with duration 5000 and gets a timer of 5000 whose
    firing removes it. *)
Theorem addNotification_zero_duration_is_dismissed :
  notifications
    (store (exec (addNotification (mkNotificationInput NInfo "Saved" None (Some 0%Z) None))
              (sampleWorld tickingClock [])))
  = [mkNotification "k7q0loyw3v28" NInfo "Saved" None (Some 5000%Z) None]
  /\ timers (exec (addNotification (mkNotificationInput NInfo "Saved" None (Some 0%Z) None))
               (sampleWorld tickingClock []))
     = [mkTimer 5000 "k7q0loyw3v28"]
  /\ notifications
       (store (exec (fireTimer 0)
                 (exec (addNotification
                          (mkNotificationInput NInfo "Saved" None (Some 0%Z) None))
                    (sampleWorld tickingClock []))))
     = [].
Proof. repeat split. Qed.

(** ** Deleting a category *)

Lemma moved_no_reference (id : string) (l l' : list Todo) :
  id <> "personal" ->
  Forall2 (touched (fun t => String.eqb (todo_category t) id) moveToPersonal) l l' ->
  Forall (fun t => todo_category t <> id) l'.
Proof.
  intros Hid. induction 1 as [|a b l l' Hab H1 IH]; constructor; [|exact IH].
  unfold touched in Hab. destruct (String.eqb_spec (todo_category a) id) as [_|Hne].
  - destruct Hab as [now ->]. simpl. congruence.
  - by subst b.
Qed.

(** X29: for an identifier other than 'personal', no item refers to it
    after [deleteCategory], the items that did are in 'personal', and the
    category is gone. *)
Lemma deleteCategory_reassigns (id : string) (w : World) :
  id <> "personal" ->
  Forall (fun t => todo_category t <> id) (todos (store (exec (deleteCategory id) w)))
  /\ Forall2 (touched (fun t => String.eqb (todo_category t) id) moveToPersonal)
       (todos (store w)) (todos (store (exec (deleteCategory id) w)))
  /\ eval (getCategoryById id) (exec (deleteCategory id) w) = None.
Proof.
  intros Hid.
  pose proof (mapM_touch (fun t => String.eqb (todo_category t) id) moveToPersonal
                (todos (store w)) w) as [H1 H2].
  assert (todos (store (exec (deleteCategory id) w))
          = eval (mapM (fun todo =>
                          if String.eqb (todo_category todo) id
                          then let! now := newDate in ret (moveToPersonal todo now)
                          else ret todo) (todos (store w))) w
          /\ categories (store (exec (deleteCategory id) w))
             = List.filter (fun cat => negb (String.eqb (cat_id cat) id))
                 (categories (store w))) as [Htodos Hcats].
  { unfold deleteCategory. rewrite exec_bind.
    change (exec (getCategoryById id) w) with w.
    destruct (eval (getCategoryById id) w); step_action;
      [rewrite addNotification_store|]; simpl; by rewrite ?H2. }
  split; [|split].
  - rewrite Htodos. by eapply moved_no_reference.
  - by rewrite Htodos.
  - change (List.find (fun category => String.eqb (cat_id category) id)
              (categories (store (exec (deleteCategory id) w))) = None).
    rewrite Hcats. clear.
    induction (categories (store w)) as [|c l IH]; simpl; [done|].
    destruct (String.eqb (cat_id c) id) eqn:E; simpl; [exact IH|].
    by rewrite E.
Qed.

Lemma deleteCategory_reassigns_witness :
  "work" <> "personal"
  /\ Forall (fun t => todo_category t <> "work")
       (todos (store (exec (deleteCategory "work") demoWorld)))
  /\ eval (getCategoryById "work") (exec (deleteCategory "work") demoWorld) = None.
Proof.
  assert ("work" <> "personal") as Hne by discriminate.
  destruct (deleteCategory_reassigns "work" demoWorld Hne) as (Hnone & _ & Hgone).
  split; [exact Hne|]. split; [exact Hnone|exact Hgone].
Defined.

(** C4, on the code: deleting the category 'personal' removes it while
    the item that referred to it still does. *)
Theorem deleteCategory_personal_leaves_reference :
  eval (getCategoryById "personal") (sampleWorld tickingClock [sampleTodo "a" false None])
  = Some (mkCategory "personal" "Personal" "#3B82F6" (Some "User") 0)
  /\ eval (getCategoryById "personal")
       (exec (deleteCategory "personal")
          (sampleWorld tickingClock [sampleTodo "a" false None]))
     = None
  /\ map todo_category
       (todos (store (exec (deleteCategory "personal")
                        (sampleWorld tickingClock [sampleTodo "a" false None]))))
     = ["personal"].
Proof. repeat split. Qed.

(** * Further properties *)

(** ** Further properties of the query helpers *)

(** X1: whatever the key, the direction and the answers of
    [localeCompare], [sortTodos] returns a rearrangement of its input: the
    same items, each as often, and so as many. *)
Theorem sortTodos_rearranges (localeCompare : string -> string -> Z)
    (l : list Todo) (sortBy : SortBy) (sortOrder : SortOrder) :
  Permutation (sortTodos localeCompare l sortBy sortOrder) l
  /\ length (sortTodos localeCompare l sortBy sortOrder) = length l
  /\ sortTodos localeCompare l sortBy sortOrder ⊆ l
  /\ l ⊆ sortTodos localeCompare l sortBy sortOrder.
Proof.
  pose proof (arraySort_Permutation (compareTodos localeCompare sortBy sortOrder) l) as HP.
  unfold sortTodos. split; [exact HP|]. split; [by rewrite HP|].
  split; intros x; by rewrite HP.
Qed.

Lemma arraySort_sorted_id {A} (compareFn : A -> A -> Z) (l : list A) :
  StronglySorted (before compareFn) l -> arraySort compareFn l = l.
Proof.
  induction 1 as [|x l Hl IH Hx]; simpl; [done|].
  rewrite IH. destruct l as [|y l]; simpl; [done|].
  apply Forall_cons in Hx as [Hxy _]. unfold before in Hxy.
  destruct (Z.leb_spec (compareFn x y) 0); [done|lia].
Qed.

Lemma createdAt_total lc o a b :
  before (compareTodos lc SortCreatedAt o) a b \/ before (compareTodos lc SortCreatedAt o) b a.
Proof. unfold before; destruct o; simpl; lia. Qed.

Lemma createdAt_trans lc o a b c :
  before (compareTodos lc SortCreatedAt o) a b ->
  before (compareTodos lc SortCreatedAt o) b c ->
  before (compareTodos lc SortCreatedAt o) a c.
Proof. unfold before; destruct o; simpl; lia. Qed.

Lemma dueDate_total lc o a b :
  before (compareTodos lc SortDueDate o) a b \/ before (compareTodos lc SortDueDate o) b a.
Proof. destruct o; [apply dueDate_asc_total|apply dueDate_desc_total]. Qed.

Lemma dueDate_trans lc o a b c :
  before (compareTodos lc SortDueDate o) a b ->
  before (compareTodos lc SortDueDate o) b c ->
  before (compareTodos lc SortDueDate o) a c.
Proof. destruct o; [apply dueDate_asc_trans|apply dueDate_desc_trans]. Qed.

(** X2: sorting again by the same key and direction changes nothing, for
    the keys creation time, due time and priority. *)
Theorem sortTodos_idempotent (localeCompare : string -> string -> Z)
    (l : list Todo) (sortOrder : SortOrder) :
  sortTodos localeCompare (sortTodos localeCompare l SortCreatedAt sortOrder)
    SortCreatedAt sortOrder
  = sortTodos localeCompare l SortCreatedAt sortOrder
  /\ sortTodos localeCompare (sortTodos localeCompare l SortDueDate sortOrder)
       SortDueDate sortOrder
     = sortTodos localeCompare l SortDueDate sortOrder
  /\ sortTodos localeCompare (sortTodos localeCompare l SortPriority sortOrder)
       SortPriority sortOrder
     = sortTodos localeCompare l SortPriority sortOrder.
Proof.
  unfold sortTodos. repeat split; apply arraySort_sorted_id, arraySort_StronglySorted.
  - apply createdAt_total. - apply createdAt_trans.
  - apply dueDate_total. - apply dueDate_trans.
  - apply priority_total. - apply priority_trans.
Qed.

Lemma StronglySorted_reverse {A} (R : A -> A -> Prop) (l : list A) :
  StronglySorted R l -> StronglySorted (fun a b => R b a) (reverse l).
Proof.
  induction 1 as [|x l Hl IH Hx]; [constructor|].
  rewrite reverse_cons.
  apply StronglySorted_app_2; [|exact IH|repeat constructor].
  intros a b Ha Hb. apply list_elem_of_singleton in Hb as ->.
  rewrite Forall_forall in Hx. apply Hx. by rewrite elem_of_reverse in Ha.
Qed.

(** X3: when no two items share a creation timestamp, sorting by creation
    time in direction 'desc' gives exactly the reverse of sorting in
    direction 'asc'. *)
Theorem sortTodos_createdAt_reverse (localeCompare : string -> string -> Z)
    (l : list Todo) :
  NoDup (map todo_createdAt l) ->
  sortTodos localeCompare l SortCreatedAt Desc
  = reverse (sortTodos localeCompare l SortCreatedAt Asc).
Proof.
  intros Hnd.
  pose proof (arraySort_Permutation (compareTodos localeCompare SortCreatedAt Desc) l) as HPd.
  pose proof (arraySort_Permutation (compareTodos localeCompare SortCreatedAt Asc) l) as HPa.
  unfold sortTodos.
  apply (StronglySorted_unique_strong (before (compareTodos localeCompare SortCreatedAt Desc))).
  - intros a b Ha Hb Hab Hba. rewrite HPd in Ha. rewrite reverse_Permutation, HPa in Hb.
    unfold before in *; simpl in *.
    assert (todo_createdAt a = todo_createdAt b) as Heq by lia.
    clear -Hnd Ha Hb Heq.
    induction l as [|x l IH]; [by apply elem_of_nil in Ha|].
    simpl in Hnd. apply NoDup_cons in Hnd as [Hx Hnd].
    apply elem_of_cons in Ha as [->|Ha]; apply elem_of_cons in Hb as [->|Hb]; auto.
    + exfalso. apply Hx. rewrite Heq.
      apply list_elem_of_In, in_map. by apply list_elem_of_In.
    + exfalso. apply Hx. rewrite <- Heq.
      apply list_elem_of_In, in_map. by apply list_elem_of_In.
  - apply arraySort_StronglySorted; [apply createdAt_total|apply createdAt_trans].
  - eapply StronglySorted_weaken;
      [|apply StronglySorted_reverse, arraySort_StronglySorted;
        [apply (createdAt_total localeCompare Asc)|apply (createdAt_trans localeCompare Asc)]].
    unfold before; simpl; intros; lia.
  - by rewrite HPd, reverse_Permutation, HPa.
Qed.

Lemma sortTodos_createdAt_reverse_witness :
  NoDup (map todo_createdAt [stamped "a" 3; stamped "b" 1; stamped "c" 2])
  /\ sortTodos byCodePoint [stamped "a" 3; stamped "b" 1; stamped "c" 2]
       SortCreatedAt Desc
     = reverse (sortTodos byCodePoint [stamped "a" 3; stamped "b" 1; stamped "c" 2]
                  SortCreatedAt Asc).
Proof.
  assert (NoDup (map todo_createdAt [stamped "a" 3; stamped "b" 1; stamped "c" 2]))
    as Hnd.
  { simpl. refine (bool_decide_unpack _ _). vm_compute. exact I. }
  split; [exact Hnd|].
  apply (sortTodos_createdAt_reverse byCodePoint
           [stamped "a" 3; stamped "b" 1; stamped "c" 2] Hnd).
Defined.

Lemma sortInsert_filter {A} (compareFn : A -> A -> Z) (p : A -> bool) x l :
  (forall y, p x = true -> p y = true -> (compareFn x y <= 0)%Z) ->
  List.filter p (sortInsert compareFn x l) = List.filter p (x :: l).
Proof.
  intros Hp. induction l as [|y l IH]; simpl; [done|].
  destruct (Z.leb_spec (compareFn x y) 0) as [Hle|Hgt]; simpl; [done|].
  rewrite IH. simpl. destruct (p x) eqn:Hx; [|done].
  destruct (p y) eqn:Hy; [|done].
  specialize (Hp y eq_refl Hy). lia.
Qed.

(** X4: sorting by priority is stable: in either direction the items of
    one priority come out in the order they had in the input. *)
Theorem sortTodos_priority_stable (localeCompare : string -> string -> Z)
    (l : list Todo) (sortOrder : SortOrder) (p : Priority) :
  List.filter (hasPriority p) (sortTodos localeCompare l SortPriority sortOrder)
  = List.filter (hasPriority p) l.
Proof.
  unfold sortTodos. induction l as [|x l IH]; simpl; [done|].
  rewrite sortInsert_filter.
  - simpl. by rewrite IH.
  - intros y Hx Hy. unfold hasPriority in *.
    apply bool_decide_eq_true in Hx, Hy. destruct sortOrder; simpl; rewrite Hx, Hy; lia.
Qed.

(** X5: an empty string given as category, search term or tag constrains
    nothing, exactly like an absent criterion, and so does the status
    'all'.  So after [setFilter({ search: '' })], what the search box sends
    when it is emptied, the filtered list is the one of the other criteria
    alone. *)
Theorem empty_criteria_constrain_nothing (toLowerCase : string -> string)
    (l : list Todo) (st : option Status) (p : option Priority) (c s g : option string)
    (w : World) :
  filterTodos toLowerCase l (mkTodoFilter st p (Some EmptyString) s g)
  = filterTodos toLowerCase l (mkTodoFilter st p None s g)
  /\ filterTodos toLowerCase l (mkTodoFilter st p c (Some EmptyString) g)
     = filterTodos toLowerCase l (mkTodoFilter st p c None g)
  /\ filterTodos toLowerCase l (mkTodoFilter st p c s (Some EmptyString))
     = filterTodos toLowerCase l (mkTodoFilter st p c s None)
  /\ filterTodos toLowerCase l (mkTodoFilter (Some StatusAll) p c s g)
     = filterTodos toLowerCase l (mkTodoFilter None p c s g)
  /\ eval (getFilteredTodos toLowerCase)
       (exec (setFilter (mkFilterPatch None None None (Some (Some EmptyString)) None)) w)
     = filterTodos toLowerCase (todos (store w))
         (mkTodoFilter (filter_status (filters (store w)))
            (filter_priority (filters (store w)))
            (filter_category (filters (store w)))
            None
            (filter_tag (filters (store w)))).
Proof. repeat split. Qed.

Lemma filter_ext_all {A} (p q : A -> bool) (l : list A) :
  (forall x, p x = q x) -> List.filter p l = List.filter q l.
Proof. intros H. induction l as [|x l IH]; simpl; [done|]. by rewrite H, IH. Qed.

Lemma passes_ofStatus toLowerCase s t :
  passes toLowerCase (ofStatus s) t
  = match s with
    | StatusAll => true
    | StatusActive => negb (todo_completed t)
    | StatusCompleted => todo_completed t
    end.
Proof.
  unfold passes, ofStatus, statusOk, priorityOk, categoryOk, searchOk, tagOk.
  destruct s; simpl; by destruct (todo_completed t).
Qed.

Lemma countWhere_snoc {A} (p : A -> bool) (l : list A) x :
  countWhere p (l ++ [x]) = countWhere p l + (if p x then 1 else 0).
Proof.
  unfold countWhere. rewrite List.filter_app, length_app. simpl.
  by destruct (p x).
Qed.

Lemma tally_step isPast isToday pre s t :
  talliedOver isPast isToday pre s ->
  talliedOver isPast isToday (pre ++ [t]) (tally isPast isToday s t).
Proof.
  intros (Hc & Hp & Ho & Hpr & Hcat).
  unfold talliedOver. rewrite !countWhere_snoc. simpl.
  split; [|split; [|split; [|split]]].
  - rewrite Hc. unfold incr. destruct (todo_completed t); lia.
  - rewrite Hp. unfold incr. change (isPending t) with (negb (todo_completed t)).
    destruct (todo_completed t); simpl; lia.
  - rewrite Ho. unfold incr.
    change (pendingOverdue isPast isToday t)
      with (negb (todo_completed t)
            && match todo_dueDate t with
               | Some d => isOverdue isPast isToday d
               | None => false
               end).
    destruct (todo_completed t); simpl; [lia|].
    destruct (todo_dueDate t); [|lia]. destruct (isOverdue isPast isToday z); lia.
  - intros p. rewrite countWhere_snoc, lookup_alter.
    change (hasPriority p t) with (bool_decide (todo_priority t = p)).
    destruct (decide (todo_priority t = p)) as [->|Hne].
    + rewrite Hpr, bool_decide_eq_true_2 by done. simpl. unfold incr. f_equal. lia.
    + rewrite Hpr, bool_decide_eq_false_2 by done. f_equal. lia.
  - intros c. rewrite countWhere_snoc.
    change (inCategory c t) with (String.eqb (todo_category t) c).
    pose proof (Hcat (todo_category t)) as Hown.
    unfold tallyCategory.
    destruct (String.eqb_spec (todo_category t) c) as [<-|Hne].
    + unfold categoryTally in *.
      destruct (String.eqb (todo_category t) "__proto__").
      { by rewrite Hown. }
      destruct (inheritsMethod (todo_category t));
        destruct (countWhere (inCategory (todo_category t)) pre) as [|[|n]];
        rewrite Hown; simpl; rewrite ?lookup_insert_eq; try done;
        repeat f_equal; lia.
    + rewrite Nat.add_0_r, <- Hcat.
      destruct (stats_byCategory s !! todo_category t) as [[[|n]|]|];
        rewrite ?lookup_insert_ne by done; try done.
      destruct (String.eqb (todo_category t) "__proto__"); [done|].
      destruct (inheritsMethod (todo_category t)); by rewrite lookup_insert_ne.
Qed.

Lemma tally_fold isPast isToday l pre s :
  talliedOver isPast isToday pre s ->
  talliedOver isPast isToday (pre ++ l) (fold_left (tally isPast isToday) l s).
Proof.
  revert pre s. induction l as [|t l IH]; intros pre s H; simpl.
  - by rewrite app_nil_r.
  - replace (pre ++ t :: l)%list with ((pre ++ [t]) ++ l)%list by (by rewrite <- app_assoc).
    apply IH. by apply tally_step.
Qed.

Lemma calculateTodoStats_tallied isPast isToday l :
  talliedOver isPast isToday l (calculateTodoStats isPast isToday l).
Proof.
  apply (tally_fold isPast isToday l []).
  unfold talliedOver; simpl. split; [done|]. split; [done|]. split; [done|]. split.
  - intros []; reflexivity.
  - intros c. rewrite lookup_empty. unfold categoryTally, countWhere. simpl.
    by destruct (String.eqb c "__proto__"), (inheritsMethod c).
Qed.

Lemma countWhere_le {A} (p q : A -> bool) (l : list A) :
  (forall x, p x = true -> q x = true) -> countWhere p l <= countWhere q l.
Proof.
  intros H. unfold countWhere. induction l as [|x l IH]; simpl; [lia|].
  destruct (p x) eqn:Hp; [rewrite (H x Hp); simpl; lia|].
  destruct (q x); simpl; lia.
Qed.

(** X6: [calculateTodoStats] counts the completed items, the items not
    completed and, among the latter, those whose due time is overdue; the
    overdue count never exceeds the pending count. *)
Theorem calculateTodoStats_status_counts (isPast isToday : Z -> bool) (l : list Todo) :
  stats_completed (calculateTodoStats isPast isToday l) = countWhere todo_completed l
  /\ stats_pending (calculateTodoStats isPast isToday l)
     = countWhere isPending l
  /\ stats_overdue (calculateTodoStats isPast isToday l)
     = countWhere (pendingOverdue isPast isToday) l
  /\ stats_overdue (calculateTodoStats isPast isToday l)
     <= stats_pending (calculateTodoStats isPast isToday l).
Proof.
  destruct (calculateTodoStats_tallied isPast isToday l) as (Hc & Hp & Ho & _).
  repeat split; try done.
  rewrite Ho, Hp. apply countWhere_le.
  intros t Ht. unfold pendingOverdue in Ht. unfold isPending.
  by apply andb_true_iff in Ht as [-> _].
Qed.

(** X7: the bucket of each priority holds the number of items of that
    priority.  [byCategory] holds, for a category that occurs and is not
    named like a member of [Object.prototype], the number of its items,
    and no entry for a category that does not occur; for a category named
    like an inherited method it holds [NaN] after the first item and one
    less than the number of items from the second on; for [__proto__] it
    never holds an entry. *)
Theorem calculateTodoStats_tallies (isPast isToday : Z -> bool) (l : list Todo) :
  (forall p, stats_byPriority (calculateTodoStats isPast isToday l) !! p
             = Some (countWhere (hasPriority p) l))
  /\ (forall c, stats_byCategory (calculateTodoStats isPast isToday l) !! c
                = categoryTally c (countWhere (inCategory c) l)).
Proof.
  destruct (calculateTodoStats_tallied isPast isToday l) as (_ & _ & _ & Hp & Hc).
  by split.
Qed.

(** X8: filtering by status alone agrees with the statistics: the
    'completed' filter keeps as many items as [completed] counts, the
    'active' filter as many as [pending] counts, the two together account
    for every item, and the status 'all' keeps the whole list. *)
Theorem filterTodos_by_status_counts (toLowerCase : string -> string)
    (isPast isToday : Z -> bool) (l : list Todo) :
  length (filterTodos toLowerCase l (ofStatus StatusCompleted))
  = stats_completed (calculateTodoStats isPast isToday l)
  /\ length (filterTodos toLowerCase l (ofStatus StatusActive))
     = stats_pending (calculateTodoStats isPast isToday l)
  /\ length (filterTodos toLowerCase l (ofStatus StatusActive))
     + length (filterTodos toLowerCase l (ofStatus StatusCompleted))
     = length l
  /\ filterTodos toLowerCase l (ofStatus StatusAll) = l.
Proof.
  destruct (calculateTodoStats_tallied isPast isToday l) as (Hc & Hp & _).
  assert (filterTodos toLowerCase l (ofStatus StatusCompleted)
          = List.filter todo_completed l) as Ecomp.
  { apply filter_ext_all. intros t. by rewrite passes_ofStatus. }
  assert (filterTodos toLowerCase l (ofStatus StatusActive)
          = List.filter isPending l) as Eact.
  { apply filter_ext_all. intros t. by rewrite passes_ofStatus. }
  rewrite Ecomp, Eact, Hc, Hp. unfold countWhere.
  repeat split.
  - clear. induction l as [|t l IH]; simpl; [done|].
    unfold isPending at 1. destruct (todo_completed t); simpl; lia.
  - apply filter_all. intros t. by rewrite passes_ofStatus.
Qed.

(** ** Array helpers *)

Section UniqueFacts.
Context {A : Type} `{EqDecision A}.

Lemma unique_fold (l seen : list A) :
  NoDup seen ->
  exists rest,
    fold_left remember l seen = (seen ++ rest)%list
    /\ NoDup (seen ++ rest)
    /\ sublist rest l
    /\ (forall x, x ∈ l -> x ∈ (seen ++ rest)%list).
Proof.
  revert seen. induction l as [|x l IH]; intros seen Hnd; simpl.
  - exists []. rewrite app_nil_r. repeat split; [done|constructor|].
    intros x Hx. by apply elem_of_nil in Hx.
  - unfold remember at 2. destruct (bool_decide_reflect (x ∈ seen)) as [Hin|Hnin].
    + destruct (IH seen Hnd) as (rest & Hfold & Hnd' & Hsub & Hall).
      exists rest. repeat split; [done|done|by constructor|].
      intros y Hy. apply elem_of_cons in Hy as [->|Hy]; [|by apply Hall].
      apply elem_of_app. by left.
    + destruct (IH (seen ++ [x])%list) as (rest & Hfold & Hnd' & Hsub & Hall).
      { apply NoDup_app. repeat split; [done| |apply NoDup_singleton].
        intros y Hy Hy'. apply list_elem_of_singleton in Hy' as ->. done. }
      exists (x :: rest). rewrite <- app_assoc in Hfold, Hnd', Hall. simpl in *.
      repeat split; [done|done|by constructor|].
      intros y Hy. apply elem_of_cons in Hy as [->|Hy]; [|by apply Hall].
      apply elem_of_app. right. by left.
Qed.

Lemma unique_fold_NoDup (l seen : list A) :
  NoDup (seen ++ l) -> fold_left remember l seen = (seen ++ l)%list.
Proof.
  revert seen. induction l as [|x l IH]; intros seen Hnd; simpl.
  - by rewrite app_nil_r.
  - unfold remember at 2. destruct (bool_decide_reflect (x ∈ seen)) as [Hin|Hnin].
    + exfalso. apply NoDup_app in Hnd as (_ & Hdisj & _).
      apply (Hdisj x Hin). by left.
    + rewrite IH; rewrite <- app_assoc; done.
Qed.

(** X9: [unique] returns a list without repetition that has exactly the
    elements of its input, in input order; applying it twice, or to the
    input repeated twice, gives the same result. *)
Theorem unique_spec (l : list A) :
  NoDup (unique l)
  /\ sublist (unique l) l
  /\ (forall x, x ∈ unique l <-> x ∈ l)
  /\ unique (unique l) = unique l
  /\ unique (l ++ l) = unique l.
Proof.
  destruct (unique_fold l [] (NoDup_nil_2)) as (rest & Hfold & Hnd & Hsub & Hall).
  simpl in *.
  assert (unique l = rest) as Hu by exact Hfold.
  assert (forall m : list A, NoDup m -> unique m = m) as Hid.
  { intros m Hm. apply (unique_fold_NoDup m []). done. }
  rewrite Hu. split; [done|]. split; [done|].
  split; [intros x; split; [by apply sublist_subseteq|by apply Hall]|].
  split; [by apply Hid|].
  assert (unique (l ++ l) = fold_left remember l (unique l)) as ->.
  { unfold unique. apply fold_left_app. }
  rewrite Hu.
  clear Hu Hfold Hsub Hid Hnd. revert Hall. generalize rest as seen.
  induction l as [|x l IH]; intros seen Hall; simpl; [done|].
  unfold remember at 2. rewrite bool_decide_eq_true_2.
  - apply IH. intros y Hy. apply Hall. by right.
  - apply Hall. by left.
Qed.
End UniqueFacts.



Lemma value36_digit36 d : (0 <= d < 36)%Z -> value36 (digit36 d) = d.
Proof.
  intros Hd. unfold value36, digit36.
  destruct (Z.ltb_spec d 10).
  - rewrite nat_ascii_embedding by lia.
    destruct (Nat.ltb_spec (48 + Z.to_nat d) 58); lia.
  - rewrite nat_ascii_embedding by lia.
    destruct (Nat.ltb_spec (87 + Z.to_nat d) 58); lia.
Qed.

Lemma append_assoc (s1 s2 s3 : string) : (s1 ++ s2) ++ s3 = s1 ++ (s2 ++ s3).
Proof.
  induction s1 as [|c s1 IH]; [done|].
  change (String c ((s1 ++ s2) ++ s3) = String c (s1 ++ (s2 ++ s3))).
  by rewrite IH.
Qed.

Lemma append_nil_r (s : string) : s ++ EmptyString = s.
Proof.
  induction s as [|c s IH]; [done|].
  change (String c (s ++ EmptyString) = String c s). by rewrite IH.
Qed.

Lemma decode36_app v s1 s2 : decode36 v (s1 ++ s2) = decode36 (decode36 v s1) s2.
Proof.
  revert v. induction s1 as [|c s1 IH]; intros v; [done|].
  change (decode36 (v * 36 + value36 c) (s1 ++ s2)
          = decode36 (decode36 (v * 36 + value36 c) s1) s2).
  apply IH.
Qed.

Lemma digits36_decode fuel n acc :
  (0 < n < 36 ^ Z.of_nat fuel)%Z ->
  exists ds, digits36 fuel n acc = ds ++ acc /\ decode36 0 ds = n.
Proof.
  revert n acc. induction fuel as [|fuel IH]; intros n acc Hn.
  - simpl in Hn. lia.
  - simpl digits36.
    assert (0 <= n mod 36 < 36)%Z as Hmod by (apply Z.mod_pos_bound; lia).
    destruct (Z.eqb_spec (n / 36) 0) as [Hq|Hq].
    + exists (String (digit36 (n mod 36)) EmptyString). split; [done|].
      simpl. rewrite value36_digit36 by done.
      pose proof (Z.div_mod n 36). lia.
    + destruct (IH (n / 36)%Z (String (digit36 (n mod 36)) acc)) as (ds & Hds & Hdec).
      { split.
        - pose proof (Z.div_pos n 36). lia.
        - apply Z.div_lt_upper_bound; [lia|].
          rewrite Nat2Z.inj_succ, Z.pow_succ_r in Hn by lia. lia. }
      exists (ds ++ String (digit36 (n mod 36)) EmptyString). split.
      * rewrite Hds. by rewrite append_assoc.
      * rewrite decode36_app, Hdec. simpl. rewrite value36_digit36 by done.
        pose proof (Z.div_mod n 36). lia.
Qed.

Lemma toString36_round_trip (n : Z) :
  (0 <= n)%Z -> decode36 0 (toString36 n) = n.
Proof.
  intros Hn. unfold toString36.
  destruct (Z.eqb_spec n 0) as [->|Hne]; [reflexivity|].
  destruct (Z.ltb_spec n 0); [lia|].
  destruct (digits36_decode (Z.to_nat (Z.log2 n) + 1) n EmptyString) as (ds & Hds & Hdec).
  { split; [lia|].
    pose proof (Z.log2_nonneg n).
    rewrite Nat2Z.inj_add, Z2Nat.id by lia. simpl (Z.of_nat 1).
    pose proof (Z.log2_spec n ltac:(lia)) as [_ Hup].
    eapply Z.lt_le_trans; [exact Hup|].
    replace (Z.succ (Z.log2 n)) with (Z.log2 n + 1)%Z by lia.
    apply Z.pow_le_mono_l. lia. }
  by rewrite Hds, append_nil_r.
Qed.

(** X11: with the same random text, [generateId] gives different
    identifiers at different (non-negative) clock readings: the base-36
    time suffix determines the reading. *)
Theorem generateId_separates_times (w1 w2 : World) :
  entropy w1 (draws w1) = entropy w2 (draws w2) ->
  (0 <= clock w1 (clockReads w1))%Z ->
  (0 <= clock w2 (clockReads w2))%Z ->
  eval generateId w1 = eval generateId w2 ->
  clock w1 (clockReads w1) = clock w2 (clockReads w2).
Proof.
  intros Hsame H1 H2 Heq.
  change (entropy w1 (draws w1) ++ toString36 (clock w1 (clockReads w1))
          = entropy w2 (draws w2) ++ toString36 (clock w2 (clockReads w2))) in Heq.
  rewrite Hsame in Heq. apply (inj (String.append _)) in Heq.
  rewrite <- (toString36_round_trip _ H1), <- (toString36_round_trip _ H2).
  by rewrite Heq.
Qed.

Lemma generateId_separates_times_witness :
  eval generateId (sampleWorld tickingClock []) = "k7q0loyw3v28"
  /\ (eval generateId (sampleWorld tickingClock [])
      = eval generateId (sampleWorld steadyClock []) ->
      clock (sampleWorld tickingClock []) (clockReads (sampleWorld tickingClock []))
      = clock (sampleWorld steadyClock []) (clockReads (sampleWorld steadyClock []))).
Proof.
  split; [reflexivity|].
  apply (generateId_separates_times (sampleWorld tickingClock [])
           (sampleWorld steadyClock [])).
  - reflexivity.
  - vm_compute. discriminate.
  - vm_compute. discriminate.
Defined.

(** ** The tag handlers *)

Lemma existsb_eqb_elem (x : string) (l : list string) :
  existsb (String.eqb x) l = true <-> x ∈ l.
Proof.
  rewrite existsb_exists. split.
  - intros (y & Hy & Heq). apply String.eqb_eq in Heq as ->. by apply list_elem_of_In.
  - intros Hx. exists x. split; [by apply list_elem_of_In|apply String.eqb_refl].
Qed.

Lemma removeTag_elem (tags : list string) (tag x : string) :
  x ∈ removeTag tags tag <-> x ∈ tags /\ x <> tag.
Proof.
  unfold removeTag. rewrite !list_elem_of_In, filter_In, negb_true_iff, String.eqb_neq.
  done.
Qed.

Lemma removeTag_NoDup (tags : list string) (tag : string) :
  NoDup tags -> NoDup (removeTag tags tag).
Proof. intros H. eapply sublist_NoDup; [exact H|apply filter_sublist]. Qed.

(** X12: the tag handlers of the form keep the tag list free of
    repetitions and of the empty tag: [addTag] only ever extends the list
    at its end and adding the same input again changes nothing; [removeTag]
    leaves no occurrence of the removed tag; removing the tag just added
    undoes the addition. *)
Theorem tag_handlers_keep_tags_distinct (trim : string -> string)
    (tags : list string) (input tag : string) :
  NoDup tags ->
  EmptyString ∉ tags ->
  NoDup (addTag trim tags input)
  /\ (EmptyString ∉ addTag trim tags input)
  /\ tags `prefix_of` addTag trim tags input
  /\ addTag trim (addTag trim tags input) input = addTag trim tags input
  /\ NoDup (removeTag tags tag)
  /\ (EmptyString ∉ removeTag tags tag)
  /\ (tag ∉ removeTag tags tag)
  /\ removeTag (addTag trim tags input) (trim input) = removeTag tags (trim input).
Proof.
  intros Hnd Hemp.
  assert (NoDup (removeTag tags tag) /\ (EmptyString ∉ removeTag tags tag)
          /\ (tag ∉ removeTag tags tag)) as Hrem.
  { split; [by apply removeTag_NoDup|]. split; rewrite removeTag_elem; tauto. }
  unfold addTag.
  destruct (String.eqb_spec (trim input) EmptyString) as [He|Hne]; simpl.
  { rewrite He. simpl. repeat split; try done; tauto. }
  destruct (existsb (String.eqb (trim input)) tags) eqn:Hin; simpl.
  - rewrite Hin. simpl.
    destruct (String.eqb_spec (trim input) EmptyString); [done|]. simpl.
    repeat split; try done; tauto.
  - assert (trim input ∉ tags) as Hnot.
    { intros H. apply existsb_eqb_elem in H. congruence. }
    split; [|split; [|split; [|split; [|split; [|split; [|split]]]]]]; try tauto.
    + apply NoDup_app. repeat split; [done| |apply NoDup_singleton].
      intros y Hy Hy'. apply list_elem_of_singleton in Hy' as ->. done.
    + intros H. apply elem_of_app in H as [H|H]; [done|].
      apply list_elem_of_singleton in H. done.
    + by apply prefix_app_r.
    + destruct (String.eqb_spec (trim input) EmptyString); [done|]. simpl.
      rewrite existsb_app. simpl. rewrite String.eqb_refl, orb_true_r. done.
    + unfold removeTag. rewrite List.filter_app. simpl.
      rewrite String.eqb_refl. simpl. by rewrite app_nil_r.
Qed.

Lemma tag_handlers_keep_tags_distinct_witness :
  NoDup ["home"; "urgent"]
  /\ NoDup (addTag (fun s => s) ["home"; "urgent"] "garden")
  /\ removeTag (addTag (fun s => s) ["home"; "urgent"] "garden") "garden"
     = removeTag ["home"; "urgent"] "garden".
Proof.
  assert (NoDup ["home"; "urgent"]) as Hnd.
  { refine (bool_decide_unpack _ _). vm_compute. exact I. }
  assert (EmptyString ∉ ["home"; "urgent"]) as Hemp.
  { refine (bool_decide_unpack _ _). vm_compute. exact I. }
  destruct (tag_handlers_keep_tags_distinct (fun s => s) ["home"; "urgent"]
              "garden" "home" Hnd Hemp)
    as (Hadd & _ & _ & _ & _ & _ & _ & Hundo).
  split; [exact Hnd|]. split; [exact Hadd|exact Hundo].
Defined.

(** ** Further properties of the store actions *)

Lemma world_eta (w : World) :
  mkWorld (store w) (timers w) (clock w) (clockReads w) (entropy w) (draws w) = w.
Proof. by destruct w. Qed.

Lemma set_todos_same (w : World) : with_store (set_todos (todos (store w))) w = w.
Proof. by destruct w as [[] ? ? ? ? ?]. Qed.

Lemma mapM_untouched (sel : Todo -> bool) (f : Todo -> Z -> Todo) l w :
  Forall (fun t => sel t = false) l ->
  eval (mapM (fun todo => if sel todo
                          then let! now := newDate in ret (f todo now)
                          else ret todo) l) w = l
  /\ exec (mapM (fun todo => if sel todo
                             then let! now := newDate in ret (f todo now)
                             else ret todo) l) w = w.
Proof.
  unfold eval, exec.
  induction 1 as [|t l Ht Hl IH]; [by split|].
  rewrite mapM_cons, Ht. change (ret t w) with (t, w). cbv beta iota.
  destruct (mapM _ l w) as [l' w']. simpl in *. destruct IH as [-> ->]. by split.
Qed.

Lemma find_None_Forall {A} (p : A -> bool) (l : list A) :
  List.find p l = None -> Forall (fun x => p x = false) l.
Proof.
  induction l as [|x l IH]; simpl; [constructor|].
  destruct (p x) eqn:Hp; [discriminate|]. by constructor; [|apply IH].
Qed.

Lemma filter_none {A} (p : A -> bool) (l : list A) :
  Forall (fun x => p x = false) l -> List.filter (fun x => negb (p x)) l = l.
Proof. induction 1 as [|x l Hx Hl IH]; simpl; [done|]. by rewrite Hx, IH. Qed.

(** X13: for an identifier that no item has, [updateTodo], [deleteTodo],
    [toggleTodo] and [duplicateTodo] leave the world exactly as it was: no
    item changes, no notification or timer is added, the clock is not
    read. *)
Theorem absent_id_is_ignored (id : string) (updates : UpdateTodoForm) (w : World) :
  eval (getTodoById id) w = None ->
  exec (updateTodo id updates) w = w
  /\ exec (deleteTodo id) w = w
  /\ exec (toggleTodo id) w = w
  /\ exec (duplicateTodo id) w = w.
Proof.
  intros Hnone. change (List.find (hasId id) (todos (store w)) = None) in Hnone.
  pose proof (find_None_Forall _ _ Hnone) as Hall.
  split; [|split; [|split]].
  - destruct (mapM_untouched (hasId id)
                (fun todo now => applyUpdates todo updates now) _ w Hall) as [He Hx].
    unfold updateTodo. step_action.
    change (fun todo : Todo => String.eqb (todo_id todo) id) with (hasId id).
    set (l' := eval _ w) in *. set (w1 := exec _ w) in *.
    rewrite He, Hx. step_action. rewrite set_todos_same.
    simpl. rewrite Hnone. reflexivity.
  - unfold deleteTodo. step_action. rewrite Hnone. step_action.
    unfold with_store. cbv beta.
    change (fun todo : Todo => negb (String.eqb (todo_id todo) id))
      with (fun todo : Todo => negb (hasId id todo)).
    rewrite filter_none by exact Hall. apply set_todos_same.
  - unfold toggleTodo. step_action. by rewrite Hnone.
  - unfold duplicateTodo. step_action. by rewrite Hnone.
Qed.

Lemma absent_id_is_ignored_witness :
  eval (getTodoById "zz") demoWorld = None
  /\ exec (updateTodo "zz" (renameTo "Buy bread")) demoWorld = demoWorld
  /\ exec (deleteTodo "zz") demoWorld = demoWorld
  /\ exec (toggleTodo "zz") demoWorld = demoWorld
  /\ exec (duplicateTodo "zz") demoWorld = demoWorld.
Proof.
  split; [reflexivity|].
  apply (absent_id_is_ignored "zz" (renameTo "Buy bread") demoWorld). reflexivity.
Defined.

Lemma touched_map {B} (sel : Todo -> bool) (f : Todo -> Z -> Todo) (g : Todo -> B) l l' :
  (forall t now, g (f t now) = g t) ->
  Forall2 (touched sel f) l l' -> map g l' = map g l.
Proof.
  intros Hg. induction 1 as [|a b l l' Hab Hl IH]; simpl; [done|].
  rewrite IH. f_equal. unfold touched in Hab.
  destruct (sel a); [destruct Hab as [now ->]; apply Hg|by subst].
Qed.

Lemma find_other (sel : Todo -> bool) (f : Todo -> Z -> Todo) (key : Todo -> bool) l l' :
  (forall t now, key (f t now) = key t) ->
  (forall t, sel t = true -> key t = false) ->
  Forall2 (touched sel f) l l' -> List.find key l' = List.find key l.
Proof.
  intros Hkey Hsel. induction 1 as [|a b l l' Hab Hl IH]; simpl; [done|].
  unfold touched in Hab. destruct (sel a) eqn:Ha.
  - destruct Hab as [now ->]. rewrite Hkey, (Hsel a Ha). exact IH.
  - subst b. by rewrite IH.
Qed.

Lemma hasId_other id id' t : id' <> id -> hasId id t = true -> hasId id' t = false.
Proof.
  unfold hasId. intros Hne Ht. apply String.eqb_eq in Ht. apply String.eqb_neq. congruence.
Qed.

(** X14: [updateTodo] never changes the identifiers, the creation
    timestamps or the number of the items, nor the categories, and lookup
    by any other identifier answers as before. *)
Theorem updateTodo_keeps_identity (id : string) (updates : UpdateTodoForm) (w : World) :
  map todo_id (todos (store (exec (updateTodo id updates) w)))
  = map todo_id (todos (store w))
  /\ map todo_createdAt (todos (store (exec (updateTodo id updates) w)))
     = map todo_createdAt (todos (store w))
  /\ length (todos (store (exec (updateTodo id updates) w))) = length (todos (store w))
  /\ categories (store (exec (updateTodo id updates) w)) = categories (store w)
  /\ (forall other, other <> id ->
        eval (getTodoById other) (exec (updateTodo id updates) w)
        = eval (getTodoById other) w).
Proof.
  destruct (updateTodo_spec id updates w) as (l' & HF & Htodos & Hcats & _).
  split; [|split; [|split; [|split]]].
  - rewrite Htodos. eapply touched_map; [|exact HF]. reflexivity.
  - rewrite Htodos. eapply touched_map; [|exact HF]. reflexivity.
  - rewrite Htodos. symmetry. by eapply Forall2_length.
  - exact Hcats.
  - intros other Hne.
    change (List.find (hasId other) (todos (store (exec (updateTodo id updates) w)))
            = List.find (hasId other) (todos (store w))).
    rewrite Htodos. eapply find_other; [|
      |exact HF]; [done|]. intros t. by apply hasId_other.
Qed.

(** X15: after [updateTodo] on the identifier of a present item, lookup by
    it answers the item with the updates applied and a new last-modified
    timestamp, and exactly one notification, 'Todo updated', has been
    appended. *)
Theorem updateTodo_then_lookup (id : string) (updates : UpdateTodoForm) (w : World)
    (t : Todo) :
  eval (getTodoById id) w = Some t ->
  exists now nid,
    eval (getTodoById id) (exec (updateTodo id updates) w)
    = Some (applyUpdates t updates now)
    /\ notifications (store (exec (updateTodo id updates) w))
       = (notifications (store w) ++ [updatedNotice nid (applyUpdates t updates now)])%list.
Proof.
  intros Hfind. change (List.find (hasId id) (todos (store w)) = Some t) in Hfind.
  destruct (updateTodo_spec id updates w) as (l' & HF & Htodos & _ & Hnot).
  pose proof (find_touched (hasId id)
                (fun todo now => applyUpdates todo updates now)
                (hasId id) _ _ (fun _ _ => eq_refl) HF) as Hf.
  rewrite Hfind in Hf. destruct Hf as (t' & Ht' & Htouch).
  rewrite Ht' in Hnot. destruct Hnot as [nid Hnot].
  unfold touched in Htouch.
  assert (hasId id t = true) as Hid by (apply find_some in Hfind; tauto).
  rewrite Hid in Htouch. destruct Htouch as [now ->].
  exists now, nid. split; [|exact Hnot].
  change (List.find (hasId id) (todos (store (exec (updateTodo id updates) w)))
          = Some (applyUpdates t updates now)).
  by rewrite Htodos.
Qed.

Lemma updateTodo_then_lookup_witness :
  eval (getTodoById "b") demoWorld = Some (sampleTodo "b" true None)
  /\ exists now nid,
       eval (getTodoById "b") (exec (updateTodo "b" (renameTo "Buy bread")) demoWorld)
       = Some (applyUpdates (sampleTodo "b" true None) (renameTo "Buy bread") now)
       /\ notifications (store (exec (updateTodo "b" (renameTo "Buy bread")) demoWorld))
          = (notifications (store demoWorld)
               ++ [updatedNotice nid
                     (applyUpdates (sampleTodo "b" true None) (renameTo "Buy bread") now)])%list.
Proof.
  split; [reflexivity|].
  apply (updateTodo_then_lookup "b" (renameTo "Buy bread") demoWorld
           (sampleTodo "b" true None)).
  reflexivity.
Defined.

Lemma find_filter_other {A} (p q : A -> bool) (l : list A) :
  (forall x, p x = true -> q x = true) ->
  List.find p (List.filter q l) = List.find p l.
Proof.
  intros H. induction l as [|x l IH]; simpl; [done|].
  destruct (q x) eqn:Hq; simpl.
  - destruct (p x); [done|exact IH].
  - destruct (p x) eqn:Hp; [|exact IH]. rewrite (H x Hp) in Hq. discriminate.
Qed.

Lemma find_filter_self {A} (p : A -> bool) (l : list A) :
  List.find p (List.filter (fun x => negb (p x)) l) = None.
Proof.
  induction l as [|x l IH]; simpl; [done|].
  destruct (p x) eqn:Hp; simpl; [exact IH|]. by rewrite Hp.
Qed.

(** X16: [deleteTodo] removes every item with the identifier and nothing
    else: lookup by it then fails, lookup by any other identifier answers
    as before, and one notification is appended exactly when an item was
    found. *)
Theorem deleteTodo_spec (id : string) (w : World) :
  todos (store (exec (deleteTodo id) w))
  = List.filter (fun todo => negb (hasId id todo)) (todos (store w))
  /\ eval (getTodoById id) (exec (deleteTodo id) w) = None
  /\ (forall other, other <> id ->
        eval (getTodoById other) (exec (deleteTodo id) w)
        = eval (getTodoById other) w)
  /\ exists nid,
       notifications (store (exec (deleteTodo id) w))
       = (notifications (store w)
            ++ match eval (getTodoById id) w with
               | Some todo => [deletedNotice nid todo]
               | None => []
               end)%list.
Proof.
  assert (todos (store (exec (deleteTodo id) w))
          = List.filter (fun todo => negb (hasId id todo)) (todos (store w))
          /\ exists nid,
               notifications (store (exec (deleteTodo id) w))
               = (notifications (store w)
                    ++ match eval (getTodoById id) w with
                       | Some todo => [deletedNotice nid todo]
                       | None => []
                       end)%list) as [Htodos Hnot].
  { unfold deleteTodo. step_action.
    destruct (List.find (hasId id) (todos (store w))) as [t|] eqn:E.
    - rewrite addNotification_store. simpl. split; [done|]. by eexists.
    - step_action. simpl. split; [done|]. exists EmptyString. by rewrite app_nil_r. }
  split; [exact Htodos|]. split; [|split; [|exact Hnot]].
  - change (List.find (hasId id) (todos (store (exec (deleteTodo id) w))) = None).
    rewrite Htodos. apply find_filter_self.
  - intros other Hne.
    change (List.find (hasId other) (todos (store (exec (deleteTodo id) w)))
            = List.find (hasId other) (todos (store w))).
    rewrite Htodos. apply find_filter_other.
    intros t Ht. apply negb_true_iff.
    destruct (hasId id t) eqn:E; [|done].
    by rewrite (hasId_other id other t Hne E) in Ht.
Qed.

Lemma addTodo_store (draft : CreateTodoForm) (w : World) :
  todos (store (exec (addTodo draft) w))
  = (todos (store w)
       ++ [mkTodo (eval generateId w) (form_title draft) (form_description draft) false
             (form_priority draft) (form_category draft) (form_dueDate draft)
             (clock w (S (clockReads w))) (clock w (S (S (clockReads w))))
             (form_tags draft)])%list
  /\ categories (store (exec (addTodo draft) w)) = categories (store w)
  /\ exists nid,
       notifications (store (exec (addTodo draft) w))
       = (notifications (store w)
            ++ [createdNotice nid (form_title draft)])%list.
Proof.
  unfold addTodo. step_action. rewrite addNotification_store. simpl.
  repeat split. by eexists.
Qed.

(** X17: [duplicateTodo] on a present item appends one item, a copy with
    the generated identifier, the title followed by ' (Copy)', the
    completion flag cleared and new timestamps; the categories are
    unchanged and one notification is added. *)
Theorem duplicateTodo_appends_copy (id : string) (w : World) (t : Todo) :
  eval (getTodoById id) w = Some t ->
  todos (store (exec (duplicateTodo id) w))
  = (todos (store w)
       ++ [copyOf t (eval generateId w)
             (clock w (S (clockReads w))) (clock w (S (S (clockReads w))))])%list
  /\ categories (store (exec (duplicateTodo id) w)) = categories (store w)
  /\ length (notifications (store (exec (duplicateTodo id) w)))
     = S (length (notifications (store w))).
Proof.
  intros Hfind. change (List.find (hasId id) (todos (store w)) = Some t) in Hfind.
  unfold duplicateTodo. step_action. rewrite Hfind.
  destruct (addTodo_store
              (mkCreateTodoForm (todo_title t ++ " (Copy)") (todo_description t)
                 (todo_priority t) (todo_category t) (todo_dueDate t) (todo_tags t)) w)
    as (Htodos & Hcats & nid & Hnot).
  rewrite Htodos, Hcats, Hnot. repeat split.
  rewrite length_app. simpl. lia.
Qed.

Lemma duplicateTodo_appends_copy_witness :
  eval (getTodoById "b") demoWorld = Some (sampleTodo "b" true None)
  /\ todos (store (exec (duplicateTodo "b") demoWorld))
     = (todos (store demoWorld)
          ++ [copyOf (sampleTodo "b" true None) (eval generateId demoWorld)
                (clock demoWorld (S (clockReads demoWorld)))
                (clock demoWorld (S (S (clockReads demoWorld))))])%list.
Proof.
  split; [reflexivity|].
  apply (duplicateTodo_appends_copy "b" demoWorld (sampleTodo "b" true None)).
  reflexivity.
Defined.

(** X18: [bulkDeleteTodos] keeps, in order, exactly the items whose
    identifier is not among [ids], and always appends one notification,
    whose message reports the number of identifiers requested, whether or
    not they were found. *)
Theorem bulkDeleteTodos_spec (ids : list string) (w : World) :
  todos (store (exec (bulkDeleteTodos ids) w))
  = List.filter (fun todo => negb (includesId ids (todo_id todo))) (todos (store w))
  /\ Forall (fun todo => todo_id todo ∉ ids) (todos (store (exec (bulkDeleteTodos ids) w)))
  /\ sublist (todos (store (exec (bulkDeleteTodos ids) w))) (todos (store w))
  /\ categories (store (exec (bulkDeleteTodos ids) w)) = categories (store w)
  /\ exists nid,
       notifications (store (exec (bulkDeleteTodos ids) w))
       = (notifications (store w)
            ++ [bulkNotice nid "Todos deleted" (length ids) " todo(s) have been deleted"])%list.
Proof.
  assert (todos (store (exec (bulkDeleteTodos ids) w))
          = List.filter (fun todo => negb (includesId ids (todo_id todo)))
              (todos (store w))) as Htodos.
  { unfold bulkDeleteTodos. step_action. by rewrite addNotification_store. }
  split; [exact Htodos|]. rewrite Htodos.
  split; [|split; [apply filter_sublist|]].
  - apply Forall_forall. intros t Ht Hin.
    apply list_elem_of_In, filter_In in Ht as [_ Ht].
    apply negb_true_iff in Ht. unfold includesId in Ht.
    apply existsb_eqb_elem in Hin. congruence.
  - unfold bulkDeleteTodos. step_action. rewrite addNotification_store. simpl.
    split; [done|]. by eexists.
Qed.

(** X19: [bulkUpdateTodos] applies the updates to the items whose
    identifier is among [ids] and leaves the others as they are; the
    identifiers and the categories are unchanged and one notification,
    reporting the number of identifiers requested, is appended. *)
Theorem bulkUpdateTodos_spec (ids : list string) (updates : UpdateTodoForm) (w : World) :
  Forall2 (touched (fun todo => includesId ids (todo_id todo))
             (fun todo now => applyUpdates todo updates now))
    (todos (store w)) (todos (store (exec (bulkUpdateTodos ids updates) w)))
  /\ map todo_id (todos (store (exec (bulkUpdateTodos ids updates) w)))
     = map todo_id (todos (store w))
  /\ categories (store (exec (bulkUpdateTodos ids updates) w)) = categories (store w)
  /\ exists nid,
       notifications (store (exec (bulkUpdateTodos ids updates) w))
       = (notifications (store w)
            ++ [bulkNotice nid "Todos updated" (length ids) " todo(s) have been updated"])%list.
Proof.
  pose proof (mapM_touch (fun todo => includesId ids (todo_id todo))
                (fun todo now => applyUpdates todo updates now)
                (todos (store w)) w) as [H1 H2].
  assert (todos (store (exec (bulkUpdateTodos ids updates) w))
          = eval (mapM (fun todo =>
                          if includesId ids (todo_id todo)
                          then let! now := newDate in ret (applyUpdates todo updates now)
                          else ret todo) (todos (store w))) w
          /\ categories (store (exec (bulkUpdateTodos ids updates) w)) = categories (store w)
          /\ exists nid,
               notifications (store (exec (bulkUpdateTodos ids updates) w))
               = (notifications (store w)
                    ++ [bulkNotice nid "Todos updated" (length ids)
                          " todo(s) have been updated"])%list) as (Htodos & Hcats & Hnot).
  { unfold bulkUpdateTodos. step_action. rewrite addNotification_store. simpl.
    rewrite H2. repeat split. by eexists. }
  rewrite Htodos. split; [exact H1|]. split; [|split; [exact Hcats|exact Hnot]].
  eapply touched_map; [|exact H1]. reflexivity.
Qed.

Lemma eval_getCategoryById id w :
  eval (getCategoryById id) w
  = List.find (fun category => String.eqb (cat_id category) id) (categories (store w)).
Proof. reflexivity. Qed.

(** X20: when the generated identifier is the identifier of no existing
    category, [addCategory] appends the new category and lookup by that
    identifier answers it; the items are unchanged. *)
Theorem addCategory_then_lookup (categoryData : CreateCategoryForm) (w : World) :
  ~ In (eval generateId w) (map cat_id (categories (store w))) ->
  categories (store (exec (addCategory categoryData) w))
  = (categories (store w)
       ++ [mkCategory (eval generateId w) (cform_name categoryData)
             (cform_color categoryData) (cform_icon categoryData)
             (clock w (S (clockReads w)))])%list
  /\ eval (getCategoryById (eval generateId w)) (exec (addCategory categoryData) w)
     = Some (mkCategory (eval generateId w) (cform_name categoryData)
               (cform_color categoryData) (cform_icon categoryData)
               (clock w (S (clockReads w))))
  /\ todos (store (exec (addCategory categoryData) w)) = todos (store w).
Proof.
  intros Hfresh.
  assert (categories (store (exec (addCategory categoryData) w))
          = (categories (store w)
               ++ [mkCategory (eval generateId w) (cform_name categoryData)
                     (cform_color categoryData) (cform_icon categoryData)
                     (clock w (S (clockReads w)))])%list
          /\ todos (store (exec (addCategory categoryData) w)) = todos (store w))
    as [Hcats Htodos].
  { unfold addCategory. step_action. by rewrite addNotification_store. }
  split; [exact Hcats|]. split; [|exact Htodos].
  rewrite eval_getCategoryById, Hcats, find_app_None.
  - simpl. by rewrite String.eqb_refl.
  - clear -Hfresh. induction (categories (store w)) as [|c l IH]; simpl in *; [done|].
    destruct (String.eqb_spec (cat_id c) (eval generateId w)) as [Heq|_].
    + exfalso. apply Hfresh. by left.
    + apply IH. intros Hin. apply Hfresh. by right.
Qed.

Lemma addCategory_then_lookup_witness :
  ~ In (eval generateId demoWorld) (map cat_id (categories (store demoWorld)))
  /\ eval (getCategoryById (eval generateId demoWorld))
       (exec (addCategory (mkCreateCategoryForm "Garden" "#22C55E" None)) demoWorld)
     = Some (mkCategory (eval generateId demoWorld) "Garden" "#22C55E" None
               (clock demoWorld (S (clockReads demoWorld)))).
Proof.
  assert (~ In (eval generateId demoWorld)
            (map cat_id (categories (store demoWorld)))) as Hfresh.
  { vm_compute. intros [H|[H|[H|[H|[]]]]]; discriminate H. }
  split; [exact Hfresh|].
  apply (addCategory_then_lookup (mkCreateCategoryForm "Garden" "#22C55E" None)
           demoWorld Hfresh).
Defined.

Lemma find_map_keyed {A} (key : A -> bool) (g : A -> A) (l : list A) :
  (forall x, key (g x) = key x) ->
  List.find key (map g l) = g <$> List.find key l.
Proof.
  intros Hk. induction l as [|x l IH]; simpl; [done|].
  rewrite Hk. destruct (key x); [done|exact IH].
Qed.


(** X22: [deleteCategory] on an identifier that no category has removes
    no category and emits no notification or timer; items that referred to
    that identifier are still moved to 'personal'. *)
Theorem deleteCategory_absent (id : string) (w : World) :
  eval (getCategoryById id) w = None ->
  categories (store (exec (deleteCategory id) w)) = categories (store w)
  /\ notifications (store (exec (deleteCategory id) w)) = notifications (store w)
  /\ timers (exec (deleteCategory id) w) = timers w
  /\ Forall2 (touched (fun t => String.eqb (todo_category t) id) moveToPersonal)
       (todos (store w)) (todos (store (exec (deleteCategory id) w))).
Proof.
  intros Hnone.
  rewrite eval_getCategoryById in Hnone.
  pose proof (find_None_Forall _ _ Hnone) as Hall.
  pose proof (mapM_touch (fun t => String.eqb (todo_category t) id) moveToPersonal
                (todos (store w)) w) as [H1 H2].
  assert (forall w0 : World, timers w0 = timers w ->
            timers (exec (mapM (fun todo =>
                                  if String.eqb (todo_category todo) id
                                  then let! now := newDate in ret (moveToPersonal todo now)
                                  else ret todo) (todos (store w))) w0) = timers w) as H3.
  { clear. generalize (todos (store w)) as l. induction l as [|t l IH]; intros w0 Hw0.
    - exact Hw0.
    - unfold exec in *. rewrite mapM_cons.
      destruct (String.eqb (todo_category t) id).
      + unfold bind at 1, newDate at 1, ret at 1. cbv beta iota.
        specialize (IH (mkWorld (store w0) (timers w0) (clock w0) (S (clockReads w0))
                          (entropy w0) (draws w0)) Hw0).
        destruct (mapM _ l _) as [l' w']. exact IH.
      + unfold ret at 1. specialize (IH w0 Hw0).
        destruct (mapM _ l w0) as [l' w']. exact IH. }
  unfold deleteCategory. rewrite exec_bind.
  change (exec (getCategoryById id) w) with w.
  rewrite eval_getCategoryById, Hnone. step_action. simpl.
  rewrite H2. rewrite (filter_none _ _ Hall).
  repeat split; [by apply H3|exact H1].
Qed.

Lemma deleteCategory_absent_witness :
  eval (getCategoryById "garden") demoWorld = None
  /\ categories (store (exec (deleteCategory "garden") demoWorld))
     = categories (store demoWorld)
  /\ notifications (store (exec (deleteCategory "garden") demoWorld))
     = notifications (store demoWorld).
Proof.
  split; [reflexivity|].
  destruct (deleteCategory_absent "garden" demoWorld eq_refl) as (Hc & Hn & _).
  split; [exact Hc|exact Hn].
Defined.

(** X23: after [clearFilters] the filtered list is the whole list;
    [setFilter] with the same patch twice equals once, is undone by
    [clearFilters], touches neither items nor notifications, and the
    filtered list stays a sub-list of the items. *)
Theorem filters_set_and_clear (toLowerCase : string -> string) (patch : FilterPatch)
    (w : World) :
  eval (getFilteredTodos toLowerCase) (exec clearFilters w) = todos (store w)
  /\ exec (setFilter patch) (exec (setFilter patch) w) = exec (setFilter patch) w
  /\ exec clearFilters (exec (setFilter patch) w) = exec clearFilters w
  /\ todos (store (exec (setFilter patch) w)) = todos (store w)
  /\ notifications (store (exec (setFilter patch) w)) = notifications (store w)
  /\ sublist (eval (getFilteredTodos toLowerCase) (exec (setFilter patch) w))
       (todos (store w)).
Proof.
  split; [|split; [|split; [|split; [|split]]]]; try reflexivity.
  - unfold getFilteredTodos, clearFilters. step_action. simpl.
    apply filter_all. intros t. reflexivity.
  - unfold setFilter. step_action. unfold with_store; simpl. f_equal.
    unfold set_filters; simpl. f_equal.
    unfold mergeFilter; simpl.
    by destruct patch as [[?|] [?|] [?|] [?|] [?|]].
  - unfold getFilteredTodos, setFilter. step_action. simpl. apply filter_sublist.
Qed.

Lemma filter_all_in {A} (p : A -> bool) (l : list A) :
  (forall x, In x l -> p x = true) -> List.filter p l = l.
Proof.
  induction l as [|x l IH]; simpl; intros H; [done|].
  rewrite (H x) by (by left). f_equal. apply IH. intros y Hy. apply H. by right.
Qed.

Lemma filter_idem {A} (p : A -> bool) (l : list A) :
  List.filter p (List.filter p l) = List.filter p l.
Proof.
  induction l as [|x l IH]; simpl; [done|].
  destruct (p x) eqn:Hp; simpl; [by rewrite Hp, IH|exact IH].
Qed.

(** X24: [removeNotification] removes exactly the notifications with the
    identifier, keeping the others in order; doing it again, as the timer
    of an already dismissed notification does, changes nothing; items and
    timers are untouched. *)
Theorem removeNotification_spec (id : string) (w : World) :
  notifications (store (exec (removeNotification id) w))
  = List.filter (keepsId id) (notifications (store w))
  /\ Forall (fun notif => notif_id notif <> id)
       (notifications (store (exec (removeNotification id) w)))
  /\ sublist (notifications (store (exec (removeNotification id) w)))
       (notifications (store w))
  /\ exec (removeNotification id) (exec (removeNotification id) w)
     = exec (removeNotification id) w
  /\ todos (store (exec (removeNotification id) w)) = todos (store w)
  /\ timers (exec (removeNotification id) w) = timers w.
Proof.
  split; [reflexivity|]. split; [|split; [apply filter_sublist|split; [|by split]]].
  - apply Forall_forall. intros n Hn.
    change (n ∈ List.filter (keepsId id) (notifications (store w))) in Hn.
    apply list_elem_of_In, filter_In in Hn as [_ Hn].
    unfold keepsId in Hn. apply negb_true_iff, String.eqb_neq in Hn. exact Hn.
  - unfold removeNotification. step_action. unfold with_store; simpl. f_equal.
    unfold set_notifications; simpl. f_equal. apply filter_idem.
Qed.

Lemma last_timer {A} (l : list A) (x : A) :
  (l ++ [x])%list !! length l = Some x
  /\ (take (length l) (l ++ [x]) ++ drop (S (length l)) (l ++ [x]))%list = l.
Proof.
  induction l as [|y l [IH1 IH2]]; simpl; [done|]. split; [exact IH1|by rewrite IH2].
Qed.

Lemma filter_keepsId_fresh id (l : list NotificationState) :
  ~ In id (map notif_id l) -> List.filter (keepsId id) l = l.
Proof.
  intros Hfresh. apply filter_all_in. intros n Hn.
  unfold keepsId. apply negb_true_iff, String.eqb_neq. intros Heq.
  apply Hfresh. rewrite <- Heq. by apply in_map.
Qed.

(** X25: a notification that is not persistent and whose generated
    identifier no other notification has gets one timer, with its stored
    duration; when that timer fires, the notifications and the pending
    timers are back to what they were before [addNotification]. *)
Theorem notification_timer_round_trip (n : NotificationInput) (w : World) :
  isTrue (in_persistent n) = false ->
  ~ In (eval generateId w) (map notif_id (notifications (store w))) ->
  timers (exec (addNotification n) w)
  = (timers w ++ [mkTimer (durationOrDefault (in_duration n)) (eval generateId w)])%list
  /\ notifications
       (store (exec (fireTimer (length (timers w))) (exec (addNotification n) w)))
     = notifications (store w)
  /\ timers (exec (fireTimer (length (timers w))) (exec (addNotification n) w))
     = timers w.
Proof.
  intros Hp Hfresh.
  destruct (addNotification_schedules_timer n w Hp) as [Htimers _].
  split; [exact Htimers|].
  pose proof (addNotification_store n w) as Hstore.
  destruct (last_timer (timers w)
              (mkTimer (durationOrDefault (in_duration n)) (eval generateId w)))
    as [Hlast Hrest].
  unfold exec at 1 3, fireTimer.
  rewrite Htimers, Hlast, Hrest, Hstore. simpl. split; [|done].
  change (List.filter (keepsId (eval generateId w))
            (notifications (store w)
               ++ [mkNotification (eval generateId w) (in_type n) (in_title n)
                     (in_message n) (Some (durationOrDefault (in_duration n)))
                     (in_persistent n)])
          = notifications (store w)).
  rewrite List.filter_app. simpl. unfold keepsId at 2. simpl.
  rewrite String.eqb_refl. simpl. rewrite app_nil_r.
  by apply filter_keepsId_fresh.
Qed.

Lemma notification_timer_round_trip_witness :
  isTrue (in_persistent (success "Saved" "Your changes are saved" 2000)) = false
  /\ notifications
       (store (exec (fireTimer (length (timers demoWorld)))
                 (exec (addNotification (success "Saved" "Your changes are saved" 2000))
                    demoWorld)))
     = notifications (store demoWorld).
Proof.
  split; [reflexivity|].
  assert (~ In (eval generateId demoWorld)
            (map notif_id (notifications (store demoWorld)))) as Hfresh.
  { intros []. }
  destruct (notification_timer_round_trip
              (success "Saved" "Your changes are saved" 2000) demoWorld eq_refl Hfresh)
    as (_ & Hback & _).
  exact Hback.
Defined.

(** X26: whatever the store held, after [clearAllData] there is no item,
    the categories and the filters are the default ones, the filtered list
    is empty, and the notifications are exactly the one 'Data cleared',
    for which one timer of 3000 is pending. *)
Theorem clearAllData_spec (initialCategories : list Category)
    (toLowerCase : string -> string) (w : World) :
  todos (store (exec (clearAllData initialCategories) w)) = []
  /\ categories (store (exec (clearAllData initialCategories) w)) = initialCategories
  /\ filters (store (exec (clearAllData initialCategories) w)) = defaultFilters
  /\ notifications (store (exec (clearAllData initialCategories) w))
     = [mkNotification (eval generateId w) NSuccess "Data cleared"
          (Some "All data has been cleared successfully") (Some 3000%Z) None]
  /\ eval (getFilteredTodos toLowerCase) (exec (clearAllData initialCategories) w) = []
  /\ timers (exec (clearAllData initialCategories) w)
     = (timers w ++ [mkTimer 3000 (eval generateId w)])%list.
Proof.
  assert (store (exec (clearAllData initialCategories) w)
          = mkStore [] initialCategories defaultFilters
              [mkNotification (eval generateId w) NSuccess "Data cleared"
                 (Some "All data has been cleared successfully") (Some 3000%Z) None]
              (isLoading (store w)) (error (store w))) as Hstore.
  { unfold clearAllData. step_action. by rewrite addNotification_store. }
  unfold getFilteredTodos. step_action. rewrite Hstore. simpl.
  repeat split.
Qed.

(** X27: for every text, [importData] keeps the existing items and
    categories as a prefix of the new collections, leaves the filters
    alone and appends exactly one notification, of type 'success' or
    'error'. *)
Theorem importData_keeps_existing (parse : string -> option JSValue)
    (asTodo : JSValue -> Todo) (asCategory : JSValue -> Category)
    (text : string) (w : World) :
  todos (store w) `prefix_of` todos (store (exec (importData parse asTodo asCategory text) w))
  /\ categories (store w)
     `prefix_of` categories (store (exec (importData parse asTodo asCategory text) w))
  /\ filters (store (exec (importData parse asTodo asCategory text) w)) = filters (store w)
  /\ exists n,
       notifications (store (exec (importData parse asTodo asCategory text) w))
       = (notifications (store w) ++ [n])%list
       /\ (notif_type n = NSuccess \/ notif_type n = NError).
Proof.
  unfold importData, importTry.
  destruct (parse text) as [data|].
  - destruct (getProp data "todos") as [dataTodos|] eqn:Etodos.
    + destruct (getProp data "categories") as [dataCategories|] eqn:Ecats.
      * destruct (asArray dataTodos), (asArray dataCategories);
          step_action; rewrite addNotification_store; simpl;
          (split; [try done; by apply prefix_app_r|]);
          (split; [try done; by apply prefix_app_r|]);
          (split; [done|]); (eexists; split; [reflexivity|by left]).
      * destruct data; discriminate.
    + step_action. rewrite addNotification_store. simpl.
      split; [done|]. split; [done|]. split; [done|].
      eexists; split; [reflexivity|by right].
  - step_action. rewrite addNotification_store. simpl.
    split; [done|]. split; [done|]. split; [done|].
    eexists; split; [reflexivity|by right].
Qed.

(** X28: for a text that parses to a document with an array [todos] and
    an array [categories], [importData] appends the elements of each to
    the existing collection and appends one notification, of type
    'success'. *)
Theorem importData_appends_both (parse : string -> option JSValue)
    (asTodo : JSValue -> Todo) (asCategory : JSValue -> Category)
    (text : string) (w : World) (data : JSValue) (xs ys : list JSValue) :
  parse text = Some data ->
  arrayAt data "todos" = Some xs ->
  arrayAt data "categories" = Some ys ->
  todos (store (exec (importData parse asTodo asCategory text) w))
  = (todos (store w) ++ map asTodo xs)%list
  /\ categories (store (exec (importData parse asTodo asCategory text) w))
     = (categories (store w) ++ map asCategory ys)%list
  /\ exists n,
       notifications (store (exec (importData parse asTodo asCategory text) w))
       = (notifications (store w) ++ [n])%list
       /\ notif_type n = NSuccess.
Proof.
  intros Hparse Hxs Hys. unfold importData, importTry. rewrite Hparse.
  unfold arrayAt in Hxs, Hys.
  destruct (getProp data "todos") as [dataTodos|]; [|discriminate].
  destruct (getProp data "categories") as [dataCategories|]; [|discriminate].
  rewrite Hxs, Hys. step_action. rewrite addNotification_store. simpl.
  repeat split. eexists; split; reflexivity.
Qed.

Lemma importData_appends_both_witness :
  Json.parse demoExport
  = Some (JObject [("todos", JArray [JObject [("id", JString "t1")]]);
                   ("categories", JArray [])])
  /\ todos (store (exec (importData Json.parse sampleAsTodo sampleAsCategory demoExport)
                     demoWorld))
     = (todos (store demoWorld)
          ++ map sampleAsTodo [JObject [("id", JString "t1")]])%list.
Proof.
  assert (Json.parse demoExport
          = Some (JObject [("todos", JArray [JObject [("id", JString "t1")]]);
                           ("categories", JArray [])])) as Hparse.
  { vm_compute. reflexivity. }
  split; [exact Hparse|].
  destruct (importData_appends_both Json.parse sampleAsTodo sampleAsCategory demoExport
              demoWorld _ [JObject [("id", JString "t1")]] [] Hparse eq_refl eq_refl)
    as (Htodos & _).
  exact Htodos.
Defined.

